(** * Shared control-data service of the NI-DAQ recorder

    A shallow embedding of
    - [manager_server.py]  : class [SharedData] (the quota-checked store),
    - [PythonServerClient.py] : class [PythonServer] (the fail-soft client),
    - [daq.py] : [MultiChannelDAQ_GUI.external_toggle_logging] and
      [toggle_logging] (the polling bridge),
    together with the properties of the service that the specification
    states about them. *)

From stdpp Require Import gmap strings list fin_maps.
From Stdlib Require Import ZArith Lia.

Local Open Scope Z_scope.

(** ** Python values

    The values that travel through the store: what a controller script can
    pickle and send.  Containers keep their elements in iteration order. *)

#[local] Unset Elimination Schemes.
Inductive pyval : Type :=
| VNone
| VBool (b : bool)
| VInt (z : Z)
| VStr (s : string)
| VBytes (bs : list Byte.byte)
| VList (xs : list pyval)
| VTuple (xs : list pyval)
| VSet (xs : list pyval)
| VDict (kvs : list (pyval * pyval)).
#[local] Set Elimination Schemes.

(** [x is None] *)
Definition is_None (v : pyval) : bool :=
  match v with VNone => true | _ => false end.

(** Truth value of an object in a condition ([if x], [not x]). *)
Definition truthy (v : pyval) : bool :=
  match v with
  | VNone => false
  | VBool b => b
  | VInt z => negb (z =? 0)
  | VStr s => negb (String.eqb s EmptyString)
  | VBytes bs => match bs with [] => false | _ => true end
  | VList xs | VTuple xs | VSet xs => match xs with [] => false | _ => true end
  | VDict kvs => match kvs with [] => false | _ => true end
  end.

(** ** Induction on values, through the containers *)

Section pyval_induction.

Variable P : pyval → Prop.
Hypothesis HNone : P VNone.
Hypothesis HBool : ∀ b, P (VBool b).
Hypothesis HInt : ∀ z, P (VInt z).
Hypothesis HStr : ∀ s, P (VStr s).
Hypothesis HBytes : ∀ bs, P (VBytes bs).
Hypothesis HList : ∀ xs, Forall P xs → P (VList xs).
Hypothesis HTuple : ∀ xs, Forall P xs → P (VTuple xs).
Hypothesis HSet : ∀ xs, Forall P xs → P (VSet xs).
Hypothesis HDict :
  ∀ kvs, Forall (λ kv, P kv.1 ∧ P kv.2) kvs → P (VDict kvs).

Fixpoint pyval_ind (v : pyval) : P v :=
  let all :=
    fix all (xs : list pyval) : Forall P xs :=
      match xs with
      | [] => Forall_nil_2 P
      | x :: xs' => Forall_cons_2 P x xs' (pyval_ind x) (all xs')
      end in
  match v with
  | VNone => HNone
  | VBool b => HBool b
  | VInt z => HInt z
  | VStr s => HStr s
  | VBytes bs => HBytes bs
  | VList xs => HList xs (all xs)
  | VTuple xs => HTuple xs (all xs)
  | VSet xs => HSet xs (all xs)
  | VDict kvs =>
      HDict kvs
        ((fix items (l : list (pyval * pyval))
            : Forall (λ kv, P kv.1 ∧ P kv.2) l :=
            match l with
            | [] => Forall_nil_2 _
            | (k, v') :: l' =>
                Forall_cons_2 (λ kv, P kv.1 ∧ P kv.2) (k, v') l'
                  (conj (pyval_ind k) (pyval_ind v')) (items l')
            end) kvs)
  end.

End pyval_induction.

(** The builtin [sum], on integers. *)
Definition sum (l : list Z) : Z := foldr Z.add 0 l.
Arguments sum : simpl never.

(** ** Data of the three components *)

(** The server process.

    One [SharedData] instance, reached through the manager's proxy.  A
    remote call either reaches the instance or raises in the caller
    (connection lost, value not picklable); [link_ok] says which, and it
    does not change during one client method or one poll cycle.  What the
    instance itself raises while serving a call is part of [update_data]
    below. *)
Record Server := { data : gmap string pyval; link_ok : bool }.

Definition with_data (w : Server) (d : gmap string pyval) : Server :=
  {| data := d; link_ok := link_ok w |}.

(** The client object of [PythonServerClient.PythonServer]. *)
Inductive SharedDataManager := BaseManager.
Inductive Proxy := SharedDataProxy.

Record PythonServer := {
  manager : option SharedDataManager;
  shared_data : option Proxy
}.

(** What [self.manager.connect()] followed by [get_shared_data()] does. *)
Inductive connect_outcome :=
| Connects
| RaisesConnectionRefusedError
| RaisesException.

(** A caller's sequence of reads and writes, with what each returned. *)
Inductive call := Read (key : string) | Write (key : string) (value : pyval).

(** The fields of the window that logging touches. *)
Record GUI := {
  is_logging : bool;
  h5_file : option string;
  btn_log : string;
  server : PythonServer
}.

(** A method either returns or raises; the state it leaves is kept in both
    cases, since the fields assigned before a raise stay assigned. *)
Inductive outcome (A : Type) :=
| Returns (a : A)
| Raises (a : A).
Arguments Returns {A} a.
Arguments Raises {A} a.

(** What a call of [update_data] comes to: the boolean it returns, or the
    [RecursionError] that [_get_size] raises and nothing catches. *)
Inductive answer :=
| Answer (b : bool)
| RecursionError.

(** ** The store: [manager_server.SharedData] *)

Definition MB : Z := 1024 * 1024.
Definition ENTRY_LIMIT : Z := 25 * 1024 * 1024.
Definition TOTAL_LIMIT : Z := 50 * 1024 * 1024.

Section SharedData.

(** [sys.getsizeof] is the interpreter's: the shallow size of one object,
    a number of bytes that depends on the build. *)
Variable getsizeof : pyval → Z.

(** The number [_get_size] arrives at when the interpreter lets it finish:
    the shallow size plus, for a dict, the sizes of its keys and values and,
    for a list, tuple or set, the sizes of its elements; any other object
    counts for its shallow size only. *)
Fixpoint deep_size (obj : pyval) : Z :=
  let size := getsizeof obj in
  match obj with
  | VDict kvs =>
      size + sum (map (λ kv, deep_size kv.1 + deep_size kv.2) kvs)
  | VList xs | VTuple xs | VSet xs =>
      size + sum (map deep_size xs)
  | _ => size
  end.

(** The frames of the interpreter's stack that sizing an object takes: one
    for the call of [_get_size] and, in a container, one for the generator
    that [sum] runs, on top of what the contents take. *)
Fixpoint frames_needed (obj : pyval) : nat :=
  (match obj with
   | VDict kvs =>
       2 + max_list
             (map (λ kv, frames_needed kv.1 `max` frames_needed kv.2) kvs)
   | VList xs | VTuple xs | VSet xs => 2 + max_list (map frames_needed xs)
   | _ => 1
   end)%nat.

(** [SharedData._get_size], called with [frames] frames left below the
    recursion limit.  Entering the call takes a frame, entering the
    generator expression another; with none left the interpreter raises
    [RecursionError], here [None], which passes through every caller up to
    [update_data]. *)
Fixpoint _get_size (frames : nat) (obj : pyval) : option Z :=
  match frames with
  | O => None
  | S frames =>
      let size := getsizeof obj in
      match obj with
      | VDict kvs =>
          match frames with
          | O => None
          | S frames =>
              sizes ← mapM (λ kv, k ← _get_size frames kv.1;
                                  v ← _get_size frames kv.2;
                                  Some (k + v)) kvs;
              Some (size + sum sizes)
          end
      | VList xs | VTuple xs | VSet xs =>
          match frames with
          | O => None
          | S frames =>
              sizes ← mapM (_get_size frames) xs;
              Some (size + sum sizes)
          end
      | _ => Some size
      end
  end.

(** [self._data]: a dict from keys (strings, as every caller passes) to
    values.  [as_dict] is the same dict seen as a Python object, which is
    how [_get_size] receives it. *)
Definition as_dict (d : gmap string pyval) : pyval :=
  VDict (map (λ kv, (VStr kv.1, kv.2)) (map_to_list d)).

(** [SharedData.get_data]: a copy of the dict. *)
Definition get_data (d : gmap string pyval) : gmap string pyval := d.

(** The frames left when [update_data] calls [_get_size]: the recursion
    limit less the depth of the stack of the thread that serves the
    request. *)
Variable frames : nat.

(** [SharedData.update_data]: what the call comes to and the dict
    afterwards.  Both calls of [_get_size] come before the assignment, so a
    raise leaves the dict as it was. *)
Definition update_data (key : string) (value : pyval) (d : gmap string pyval)
  : answer * gmap string pyval :=
  match _get_size frames value with
  | None => (RecursionError, d)
  | Some value_size =>
      if ENTRY_LIMIT <=? value_size then (Answer false, d)
      else
        match _get_size frames (as_dict d) with
        | None => (RecursionError, d)
        | Some current_size =>
            if TOTAL_LIMIT <=? current_size then (Answer false, d)
            else (Answer true, <[key := value]> d)
        end
  end.

(** [SharedData.delete_data] *)
Definition delete_data (key : string) (d : gmap string pyval)
  : bool * gmap string pyval :=
  if bool_decide (is_Some (d !! key)) then (true, delete key d)
  else (false, d).


(** ** The client: [PythonServerClient.PythonServer] *)


(** [PythonServer.__init__]: the manager object is always built; the
    proxy is kept only if connecting raised nothing. *)
Definition PythonServer_init (o : connect_outcome) : PythonServer :=
  {| manager := Some BaseManager;
     shared_data := match o with
                    | Connects => Some SharedDataProxy
                    | RaisesConnectionRefusedError => None
                    | RaisesException => None
                    end |}.

(** [PythonServer.read_data] *)
Definition read_data (c : PythonServer) (w : Server) (key : string) : pyval :=
  match shared_data c with
  | None => VNone
  | Some _ =>
      if link_ok w then
        let data := get_data (data w) in
        if bool_decide (is_Some (data !! key)) then default VNone (data !! key)
        else VNone
      else VNone
  end.

(** [PythonServer.write_data]: returns [None] on every path, so only the
    server afterwards is of interest.  What the server raises is raised
    again by the proxy and caught here like a failure of the call. *)
Definition write_data (c : PythonServer) (w : Server) (key : string)
    (value : pyval) : Server :=
  match shared_data c with
  | None => w
  | Some _ =>
      if link_ok w then
        match update_data key value (data w) with
        | (Answer _, d') => with_data w d'
        | (RecursionError, _) => w
        end
      else w
  end.

(** [PythonServer.close] *)
Definition close (c : PythonServer) : PythonServer :=
  match manager c with
  | Some _ => {| manager := None; shared_data := None |}
  | None => c
  end.


Definition do_call (c : PythonServer) (w : Server) (op : call)
  : pyval * Server :=
  match op with
  | Read key => (read_data c w key, w)
  | Write key value => (VNone, write_data c w key value)
  end.

Fixpoint do_calls (c : PythonServer) (w : Server) (ops : list call)
  : list pyval * Server :=
  match ops with
  | [] => ([], w)
  | op :: ops' =>
      let '(r, w1) := do_call c w op in
      let '(rs, w2) := do_calls c w1 ops' in
      (r :: rs, w2)
  end.

(** ** The polling bridge: [daq.MultiChannelDAQ_GUI] *)


(** Outside the program: the clock text of [datetime.now().strftime],
    whether [h5py.File(filename, 'w')] opens, and whether the datasets of
    the active channels get created. *)
Variable now : string.
Variable h5py_File : string → bool.
Variable create_datasets : string → bool.

(** [filename = self.server.read_data('storePath') + filename]: defined on
    two strings only. *)
Definition str_add (a : pyval) (b : string) : option string :=
  match a with
  | VStr p => Some (p +:+ b)
  | _ => None
  end.

(** [MultiChannelDAQ_GUI.toggle_logging] *)
Definition toggle_logging (g : GUI) (w : Server) : outcome (GUI * Server) :=
  if negb (is_logging g) then
    let filename := "daq_data_" +:+ now +:+ ".h5" in
    let filename' :=
      if negb (is_None (read_data (server g) w "storePath"))
      then str_add (read_data (server g) w "storePath") filename
      else Some filename in
    match filename' with
    | None => Raises (g, w)
    | Some filename =>
        if h5py_File filename then
          let g1 := {| is_logging := is_logging g; h5_file := Some filename;
                       btn_log := btn_log g; server := server g |} in
          if create_datasets filename then
            let g2 := {| is_logging := true; h5_file := Some filename;
                         btn_log := "Stop Logging"; server := server g |} in
            Returns (g2, write_data (server g2) w "recording" (VInt 1))
          else Raises (g1, w)
        else Raises (g, w)
    end
  else
    let g1 := {| is_logging := false; h5_file := None;
                 btn_log := "Start Logging"; server := server g |} in
    Returns (g1, write_data (server g1) w "recording" (VInt 0)).

(** [MultiChannelDAQ_GUI.external_toggle_logging]: one poll cycle. *)
Definition external_toggle_logging (g : GUI) (w : Server)
  : outcome (GUI * Server) :=
  let recording_command := read_data (server g) w "recording_command" in
  if negb (is_None recording_command) then
    if truthy recording_command && negb (is_logging g) then
      match toggle_logging g w with
      | Returns (g1, w1) =>
          Returns (g1, write_data (server g1) w1 "recording_command" VNone)
      | Raises s => Raises s
      end
    else if negb (truthy recording_command) && is_logging g then
      match toggle_logging g w with
      | Returns (g1, w1) =>
          Returns (g1, write_data (server g1) w1 "recording_command" VNone)
      | Raises s => Raises s
      end
    else Returns (g, w)
  else Returns (g, w).

End SharedData.

(** ** Reachable stores

    What the server's dict can be after any sequence of [update_data] and
    [delete_data] calls, starting from the empty dict of [__init__]. *)

Inductive request :=
| Update (key : string) (value : pyval)
| Delete (key : string).

Definition serve (getsizeof : pyval → Z) (frames : nat)
    (d : gmap string pyval) (r : request)
  : gmap string pyval :=
  match r with
  | Update key value => (update_data getsizeof frames key value d).2
  | Delete key => (delete_data key d).2
  end.

Definition serve_all (getsizeof : pyval → Z) (frames : nat) (rs : list request)
  : gmap string pyval :=
  foldl (serve getsizeof frames) ∅ rs.

(** The sizes of the stored values alone: what [update_data] measures as
    [value_size], summed over the entries. *)
Definition values_size (getsizeof : pyval → Z) (d : gmap string pyval) : Z :=
  sum (map (λ kv, deep_size getsizeof kv.2) (map_to_list d)).

(** What an entry adds to the size of the dict: its key and its value. *)
Definition entry_size (getsizeof : pyval → Z) (kv : string * pyval) : Z :=
  deep_size getsizeof (VStr kv.1) + deep_size getsizeof kv.2.

(** ** A concrete interpreter

    The sizes a 64-bit CPython 3.10 reports for the objects used in the
    examples of this file.  The last row of the dict and of the set table
    stands for every larger one.  Nothing but the examples depends on these
    figures. *)

Definition ndigits (z : Z) : Z :=
  if z =? 0 then 0 else Z.log2 (Z.abs z) / 30 + 1.

Definition len {A} (l : list A) : Z := Z.of_nat (length l).

Definition cpython_getsizeof (obj : pyval) : Z :=
  match obj with
  | VNone => 16
  | VBool b => if b then 28 else 24
  | VInt z => 24 + 4 * ndigits z
  | VStr s => 49 + Z.of_nat (String.length s)
  | VBytes bs => 33 + len bs
  | VList xs => 56 + 8 * len xs
  | VTuple xs => 40 + 8 * len xs
  | VSet xs => if len xs <=? 4 then 216 else 728
  | VDict kvs =>
      if len kvs =? 0 then 64
      else if len kvs <=? 5 then 232
      else if len kvs <=? 10 then 360
      else 640
  end.

(** The default of [sys.getrecursionlimit()]: no call has more frames left
    than that. *)
Definition recursion_limit : nat := 1000.

(** [bytes(n)]: [n] zero bytes. *)
Definition zeros (n : Z) : pyval := VBytes (replicate (Z.to_nat n) Byte.x00).

(** Every file opens and every dataset is created. *)
Definition always (_ : string) : bool := true.

(** [obj] wrapped in [n] lists, one inside the other: [[[...obj...]]]. *)
Definition nest (n : nat) (obj : pyval) : pyval :=
  Nat.iter n (λ x, VList [x]) obj.

(** A 24 MiB payload, and stores that hold two and three of them. *)
Definition blob : pyval := zeros (24 * MB).

Definition two_blobs : gmap string pyval :=
  <["b" := blob]> (<["a" := blob]> ∅).

Definition three_blobs : gmap string pyval :=
  <["c" := blob]> two_blobs.

(** ** The specification's sentences, as they are written

    Each is stated here over the embedding; the properties section settles
    which of them the program satisfies. *)

(** The aggregate check of [update] looks at the store as it would be with
    the entry inserted or replaced. *)
Definition update_checks_new_total (getsizeof : pyval → Z) (frames : nat)
    (d : gmap string pyval) (key : string) (value : pyval) : Prop :=
  deep_size getsizeof value < ENTRY_LIMIT →
  update_data getsizeof frames key value d
  = if TOTAL_LIMIT <=? deep_size getsizeof (as_dict (<[key := value]> d))
    then (Answer false, d)
    else (Answer true, <[key := value]> d).

(** A value of 25 MB or more makes [update] return failure, never raise,
    and leaves the store as it was. *)
Definition large_is_refused (getsizeof : pyval → Z) (frames : nat)
    (d : gmap string pyval) (key : string) (value : pyval) : Prop :=
  ENTRY_LIMIT ≤ deep_size getsizeof value →
  update_data getsizeof frames key value d = (Answer false, d).

(** Both quotas hold of a store. *)
Definition within_quotas (getsizeof : pyval → Z) (d : gmap string pyval)
  : Prop :=
  map_Forall (λ _ v, deep_size getsizeof v < ENTRY_LIMIT) d
  ∧ values_size getsizeof d < TOTAL_LIMIT.

(** Overwriting with the sentinel removes the entry, as deleting does. *)
Definition sentinel_removes (getsizeof : pyval → Z) (frames : nat)
    (d : gmap string pyval) (key : string) : Prop :=
  (update_data getsizeof frames key VNone d).2 !! key = None
  ∧ (update_data getsizeof frames key VNone d).2 = (delete_data key d).2.

(** The quota that every reachable store does satisfy: each value below the
    entry limit, and the values together below the two limits added. *)
Definition within_reach (getsizeof : pyval → Z) (d : gmap string pyval)
  : Prop :=
  map_Forall (λ _ v, deep_size getsizeof v < ENTRY_LIMIT) d
  ∧ values_size getsizeof d < TOTAL_LIMIT + ENTRY_LIMIT.

(** One poll cycle with the command [b] stored and the opposite local state
    makes the local transition and leaves the command reading as the
    sentinel ([b = true]: start; [b = false]: stop). *)
Definition poll_acknowledges (getsizeof : pyval → Z) (frames : nat) (now : string)
    (h5py_File create_datasets : string → bool)
    (g : GUI) (w : Server) (b : bool) : Prop :=
  read_data (server g) w "recording_command" = VBool b →
  is_logging g = negb b →
  ∃ g' w',
    external_toggle_logging getsizeof frames now h5py_File create_datasets g w
    = Returns (g', w')
    ∧ is_logging g' = b
    ∧ read_data (server g') w' "recording_command" = VNone.

(** The window as [__init__] leaves it, with a client that connected. *)
Definition fresh_gui : GUI :=
  {| is_logging := false; h5_file := None; btn_log := "Start HDF5 Logging";
     server := PythonServer_init Connects |}.

(** A server whose store holds a start command next to three payloads. *)
Definition full_server : Server :=
  {| data := <["recording_command" := VBool true]> three_blobs;
     link_ok := true |}.

(** A server whose store holds a start command, or a stop command, only. *)
Definition command_server (b : bool) : Server :=
  {| data := {["recording_command" := VBool b]}; link_ok := true |}.

(** The window once logging has started at the clock text [stamp]. *)
Definition stamp : string := "20250327_101500".


(** A hundred calls, reads and writes in turn. *)
Definition hundred_calls : list call :=
  mjoin (replicate 50
           [Read "recording"; Write "recording_command" (VBool true)]).


(** ** The rest of the program around the store *)

(** [y] occurs in [v]: [v] itself, or an element of a list, tuple or set in
    [v], or a key or value of a dict in [v], at any depth.  These are the
    objects [_get_size] visits. *)
Inductive occurs_in (y : pyval) : pyval → Prop :=
| occurs_here : occurs_in y y
| occurs_list xs x : x ∈ xs → occurs_in y x → occurs_in y (VList xs)
| occurs_tuple xs x : x ∈ xs → occurs_in y x → occurs_in y (VTuple xs)
| occurs_set xs x : x ∈ xs → occurs_in y x → occurs_in y (VSet xs)
| occurs_key kvs kv : kv ∈ kvs → occurs_in y kv.1 → occurs_in y (VDict kvs)
| occurs_value kvs kv : kv ∈ kvs → occurs_in y kv.2 → occurs_in y (VDict kvs).

(** The key a request is about, and whether it is an update. *)
Definition request_key (r : request) : string :=
  match r with Update key _ => key | Delete key => key end.

Definition is_update (r : request) : bool :=
  match r with Update _ _ => true | Delete _ => false end.

(** [start_logging_monitor]'s [monitor_loop]: poll, sleep a second, again,
    for as many turns [n] as [_monitor_running] is found set.  Nothing
    catches what a poll raises, so the thread ends there. *)
Fixpoint monitor_loop (getsizeof : pyval → Z) (frames : nat) (now : string)
    (h5py_File create_datasets : string → bool)
    (n : nat) (g : GUI) (w : Server) : outcome (GUI * Server) :=
  match n with
  | O => Returns (g, w)
  | S n' =>
      match external_toggle_logging getsizeof frames now h5py_File create_datasets
              g w with
      | Returns (g1, w1) =>
          monitor_loop getsizeof frames now h5py_File create_datasets n' g1 w1
      | Raises s => Raises s
      end
  end.

(** The state a method leaves, whether it returned or raised. *)
Definition after {A} (o : outcome A) : A :=
  match o with Returns a => a | Raises a => a end.

(** ** The display buffer: [daq_worker]

    Each channel has a buffer of [buffer_size] samples; a chunk read from
    the device is pushed with
    [buf = np.roll(buf, -len(new)); buf[-len(new):] = new]. *)

(** [np.roll(a, -k)] on a one-dimensional array: position [i] receives the
    element of position [(i + k) mod n]; an empty array stays empty. *)
Definition roll_back {A} (a : list A) (k : nat) : list A :=
  let s := (k mod length a)%nat in
  drop s a ++ take s a.

(** [a[-len(new):] = new].  The slice is the last [len(new)] positions, all
    of [a] when [new] is longer than [a] or is empty ([a[-0:]] is [a[0:]]).
    The assignment wants as many values as positions, or one value for all
    of them; anything else is a [ValueError]. *)
Definition set_tail {A} (a new : list A) : option (list A) :=
  let n := length a in
  let k := length new in
  let m := if (k =? 0)%nat then n else (k `min` n)%nat in
  if (k =? m)%nat then Some (take (n - m) a ++ new)
  else
    match new with
    | [x] => Some (take (n - m) a ++ replicate m x)
    | _ => None
    end.

(** The two statements together.  The rolled array is assigned to the
    buffer before the slice assignment can raise. *)
Definition update_buffer {A} (buf new : list A) : outcome (list A) :=
  let rolled := roll_back buf (length new) in
  match set_tail rolled new with
  | Some buf' => Returns buf'
  | None => Raises rolled
  end.

(** The buffer over the turns of the worker's loop, one chunk a turn: a
    raise is caught by the loop, which goes on to the next read. *)
Definition feed {A} (buf : list A) (chunks : list (list A)) : list A :=
  foldl (λ b new, after (update_buffer b new)) buf chunks.

(** ** The log file: [daq_worker]

    The open HDF5 file, as far as logging uses it: the one-dimensional
    datasets of the group [data] and of the group [timestamps], by channel
    name.  File operations are taken to succeed. *)
Record H5 (A : Type) := {
  data_group : gmap string (list A);
  time_group : gmap string (list string)
}.
Arguments data_group {A} _.
Arguments time_group {A} _.

(** [dset.resize(n, axis=0)]: cut to [n] elements, or filled up to [n] with
    the dataset's fill value. *)
Definition resize {B} (fill : B) (dset : list B) (n : nat) : list B :=
  take n (dset ++ replicate (n - length dset) fill).

(** The body of the worker's loop over the channels, for one channel: the
    chunk [new] read at clock text [timestamp] goes to the datasets of
    [channel_name].  Whatever raises inside is caught and the loop goes on,
    so the result is the file as the body leaves it. *)
Definition log_channel {A} (fill : A) (f : H5 A)
    (channel_name timestamp : string) (new : list A) : H5 A :=
  if (length new <=? 0)%nat then f
  else
    match data_group f !! channel_name with
    | None =>
        (* recreate_datasets: delete what is there, create both anew *)
        {| data_group := <[channel_name := new]> (data_group f);
           time_group :=
             <[channel_name := replicate (length new) timestamp]>
               (delete channel_name (time_group f)) |}
    | Some data_dset =>
        match time_group f !! channel_name with
        | None => f (* KeyError *)
        | Some time_dset =>
            let new_length := (length data_dset + length new)%nat in
            let data_dset := resize fill data_dset new_length in
            let time_dset := resize EmptyString time_dset new_length in
            let stamps := replicate (length new) timestamp in
            match set_tail data_dset new with
            | None =>
                {| data_group := <[channel_name := data_dset]> (data_group f);
                   time_group := <[channel_name := time_dset]> (time_group f)
                |}
            | Some data_dset' =>
                {| data_group :=
                     <[channel_name := data_dset']> (data_group f);
                   time_group :=
                     <[channel_name := default time_dset
                                         (set_tail time_dset stamps)]>
                       (time_group f) |}
            end
        end
    end.

(** The chunks of one channel over the turns of the loop, each with the
    clock text of its turn. *)
Definition log_all {A} (fill : A) (f : H5 A) (channel_name : string)
    (chunks : list (string * list A)) : H5 A :=
  foldl (λ f tc, log_channel fill f channel_name tc.1 tc.2) f chunks.

(** The file right after [toggle_logging] created it for one channel: both
    datasets of shape [(0,)]. *)
Definition new_log {A} (channel_name : string) : H5 A :=
  {| data_group := {[channel_name := []]};
     time_group := {[channel_name := []]} |}.

(** * Properties *)


(** ** Sums *)

Lemma sum_cons (x : Z) (l : list Z) : sum (x :: l) = x + sum l.
Proof. reflexivity. Qed.

Lemma sum_app (l1 l2 : list Z) : sum (l1 ++ l2) = sum l1 + sum l2.
Proof. induction l1 as [|x l1 IH]; simpl; [done|]. rewrite !sum_cons, IH. lia. Qed.

Lemma sum_Permutation (l1 l2 : list Z) : l1 ≡ₚ l2 → sum l1 = sum l2.
Proof.
  induction 1 as [|x l l' _ IH|x y l|l l' l'' _ IH1 _ IH2]; simpl.
  - done.
  - by rewrite !sum_cons, IH.
  - rewrite !sum_cons. lia.
  - congruence.
Qed.

Lemma sum_nonneg (l : list Z) : Forall (λ x, 0 ≤ x) l → 0 ≤ sum l.
Proof. induction 1 as [|x l Hx _ IH]; [done|]. rewrite sum_cons. lia. Qed.

Lemma sum_map_le {A} (f g : A → Z) (l : list A) :
  (∀ x, f x ≤ g x) → sum (map f l) ≤ sum (map g l).
Proof.
  intros Hfg. induction l as [|x l IH]; simpl; [done|].
  rewrite !sum_cons. specialize (Hfg x). lia.
Qed.

(** ** The size of a value and of the store *)

Lemma values_size_eq getsizeof (d : gmap string pyval) :
  values_size getsizeof d
  = sum (map (λ kv, deep_size getsizeof kv.2) (map_to_list d)).
Proof. reflexivity. Qed.

Section size_facts.

Variable getsizeof : pyval → Z.
Abbreviation deep_size := (deep_size getsizeof).
Abbreviation values_size := (values_size getsizeof).
Abbreviation entry_size := (entry_size getsizeof).

Lemma deep_size_as_dict (d : gmap string pyval) :
  deep_size (as_dict d)
  = getsizeof (as_dict d) + sum (map entry_size (map_to_list d)).
Proof.
  unfold as_dict. cbn [deep_size]. f_equal.
  rewrite map_map. reflexivity.
Qed.

Lemma entries_insert_fresh (f : string * pyval → Z) (d : gmap string pyval) key value :
  d !! key = None →
  sum (map f (map_to_list (<[key := value]> d)))
  = f (key, value) + sum (map f (map_to_list d)).
Proof.
  intros Hk. rewrite <- sum_cons, <- map_cons.
  apply sum_Permutation, Permutation_map, map_to_list_insert, Hk.
Qed.

Lemma entries_delete (f : string * pyval → Z) (d : gmap string pyval) key old :
  d !! key = Some old →
  sum (map f (map_to_list d))
  = f (key, old) + sum (map f (map_to_list (delete key d))).
Proof.
  intros Hk. rewrite <- sum_cons, <- map_cons.
  symmetry. apply sum_Permutation, Permutation_map, map_to_list_delete, Hk.
Qed.

Lemma entries_insert (f : string * pyval → Z) (d : gmap string pyval) key value :
  sum (map f (map_to_list (<[key := value]> d)))
  = f (key, value) + sum (map f (map_to_list (delete key d))).
Proof.
  rewrite <- insert_delete_eq. apply entries_insert_fresh, lookup_delete_eq.
Qed.

Hypothesis getsizeof_nonneg : ∀ v, 0 ≤ getsizeof v.

Lemma deep_size_nonneg (v : pyval) : 0 ≤ deep_size v.
Proof.
  induction v as [| | | | |xs IH|xs IH|xs IH|kvs IH] using pyval_ind;
    cbn [deep_size]; try apply getsizeof_nonneg.
  1-3: pose proof (getsizeof_nonneg (VList xs));
       pose proof (getsizeof_nonneg (VTuple xs));
       pose proof (getsizeof_nonneg (VSet xs));
       assert (0 ≤ sum (map deep_size xs))
         by (apply sum_nonneg, Forall_map; exact IH); lia.
  pose proof (getsizeof_nonneg (VDict kvs)).
  assert (0 ≤ sum (map (λ kv, deep_size kv.1 + deep_size kv.2) kvs)).
  { apply sum_nonneg, Forall_map. eapply Forall_impl; [exact IH|].
    simpl. intros kv [? ?]. lia. }
  lia.
Qed.

Lemma values_size_nonneg (d : gmap string pyval) : 0 ≤ values_size d.
Proof.
  apply sum_nonneg, Forall_map, Forall_forall. intros kv _.
  apply deep_size_nonneg.
Qed.

(** The values alone weigh no more than the dict that holds them. *)
Lemma values_size_le_total (d : gmap string pyval) :
  values_size d ≤ deep_size (as_dict d).
Proof.
  rewrite deep_size_as_dict. pose proof (getsizeof_nonneg (as_dict d)).
  assert (values_size d ≤ sum (map entry_size (map_to_list d))); [|lia].
  apply sum_map_le. intros kv. unfold entry_size.
  pose proof (deep_size_nonneg (VStr kv.1)). lia.
Qed.

(** Assigning to a key adds at most the new value's size. *)
Lemma values_size_insert_le (d : gmap string pyval) key value :
  values_size (<[key := value]> d) ≤ values_size d + deep_size value.
Proof.
  rewrite !values_size_eq.
  rewrite (entries_insert (λ kv, deep_size kv.2)). simpl.
  destruct (d !! key) as [old|] eqn:Hk.
  - rewrite (entries_delete (λ kv, deep_size kv.2) d key old Hk). simpl.
    pose proof (deep_size_nonneg old). lia.
  - rewrite delete_id by done. lia.
Qed.

Lemma values_size_delete_le (d : gmap string pyval) key :
  values_size (delete key d) ≤ values_size d.
Proof.
  rewrite !values_size_eq.
  destruct (d !! key) as [old|] eqn:Hk.
  - rewrite (entries_delete (λ kv, deep_size kv.2) d key old Hk). simpl.
    pose proof (deep_size_nonneg old). lia.
  - rewrite delete_id by done. lia.
Qed.

End size_facts.

(** ** The concrete interpreter on the example payloads *)

Lemma zeros_size (n : Z) :
  0 ≤ n → deep_size cpython_getsizeof (zeros n) = 33 + n.
Proof.
  intros Hn. unfold zeros. cbn [deep_size cpython_getsizeof].
  unfold len. rewrite length_replicate. lia.
Qed.

Lemma blob_size : deep_size cpython_getsizeof blob = 25165857.
Proof. unfold blob. rewrite zeros_size; unfold MB; lia. Qed.

Lemma cpython_getsizeof_nonneg (v : pyval) : 0 ≤ cpython_getsizeof v.
Proof.
  destruct v as [|[]|z|s|bs|xs|xs|xs|kvs]; unfold cpython_getsizeof, len;
    repeat case_match; try lia.
  unfold ndigits. case_match; [lia|].
  pose proof (Z.log2_nonneg (Z.abs z)).
  assert (0 ≤ Z.log2 (Z.abs z) / 30) by (apply Z.div_pos; lia). lia.
Qed.

(** The dict of [two_blobs] and of [three_blobs], entry by entry, for any
    payload. *)
Lemma two_entries (v : pyval) :
  map_to_list (<["b" := v]> (<["a" := v]> (∅ : gmap string pyval)))
  = [("a", v); ("b", v)].
Proof. vm_compute. reflexivity. Qed.

Lemma three_entries (v : pyval) :
  map_to_list
    (<["c" := v]> (<["b" := v]> (<["a" := v]> (∅ : gmap string pyval))))
  = [("c", v); ("a", v); ("b", v)].
Proof. vm_compute. reflexivity. Qed.

Lemma two_blobs_total :
  deep_size cpython_getsizeof (as_dict two_blobs) = 50332046.
Proof.
  rewrite deep_size_as_dict. unfold as_dict, two_blobs.
  rewrite two_entries. unfold entry_size. cbn [map fst snd].
  rewrite !sum_cons, blob_size. reflexivity.
Qed.

Lemma three_blobs_total :
  deep_size cpython_getsizeof (as_dict three_blobs) = 75497953.
Proof.
  rewrite deep_size_as_dict. unfold as_dict, three_blobs, two_blobs.
  rewrite three_entries. unfold entry_size. cbn [map fst snd].
  rewrite !sum_cons, blob_size. reflexivity.
Qed.

(** ** The recursion limit *)

Lemma mapM_frames {B} (f : B → option Z) (g : B → Z) (need : B → nat)
    (n : nat) (l : list B) :
  Forall (λ x, f x = if decide (need x ≤ n)%nat then Some (g x) else None)
    l →
  mapM f l
  = if decide (max_list (map need l) ≤ n)%nat then Some (map g l) else None.
Proof.
  induction 1 as [|x l Hx _ IH]; [done|].
  cbn [mapM map max_list]. rewrite Hx, IH. unfold id.
  repeat case_decide; simpl; try done; lia.
Qed.

(** [_get_size] returns exactly when the frames left cover the nesting of
    the object, and then it returns [deep_size]. *)
Lemma _get_size_spec getsizeof (obj : pyval) (frames : nat) :
  _get_size getsizeof frames obj
  = if decide (frames_needed obj ≤ frames)%nat
    then Some (deep_size getsizeof obj)
    else None.
Proof.
  revert frames.
  induction obj as [| | | | |xs IH|xs IH|xs IH|kvs IH] using pyval_ind;
    intros [|frames]; cbn [_get_size frames_needed deep_size];
    try (case_decide; [lia|done]); try (case_decide; [done|lia]).
  1-3: destruct frames as [|frames]; [case_decide; [lia|done]|];
       rewrite (mapM_frames _ (deep_size getsizeof) frames_needed frames xs)
         by (eapply Forall_impl; [exact IH|]; simpl; auto);
       repeat case_decide; simpl; try done; lia.
  destruct frames as [|frames]; [case_decide; [lia|done]|].
  rewrite (mapM_frames _
             (λ kv, deep_size getsizeof kv.1 + deep_size getsizeof kv.2)
             (λ kv, frames_needed kv.1 `max` frames_needed kv.2)%nat
             frames kvs).
  - repeat case_decide; simpl; try done; lia.
  - eapply Forall_impl; [exact IH|]. simpl. intros kv [Hk Hv].
    rewrite Hk, Hv. repeat case_decide; simpl; try done; lia.
Qed.

Lemma _get_size_fits getsizeof (obj : pyval) (frames : nat) :
  (frames_needed obj ≤ frames)%nat →
  _get_size getsizeof frames obj = Some (deep_size getsizeof obj).
Proof. intros Hf. rewrite _get_size_spec. by case_decide. Qed.

Lemma _get_size_Some getsizeof (obj : pyval) (frames : nat) (s : Z) :
  _get_size getsizeof frames obj = Some s →
  s = deep_size getsizeof obj ∧ (frames_needed obj ≤ frames)%nat.
Proof. rewrite _get_size_spec. case_decide; [|done]. by intros [= <-]. Qed.

Lemma _get_size_None getsizeof (obj : pyval) (frames : nat) :
  (frames < frames_needed obj)%nat →
  _get_size getsizeof frames obj = None.
Proof. intros Hf. rewrite _get_size_spec. case_decide; [lia|done]. Qed.

Lemma frames_needed_nest (n : nat) (obj : pyval) :
  frames_needed (nest n obj) = (2 * n + frames_needed obj)%nat.
Proof.
  induction n as [|n IH]; [done|].
  unfold nest in *. rewrite Nat.iter_succ. cbn [frames_needed map max_list].
  rewrite IH. unfold id. lia.
Qed.

(** ** The store *)

Section store_properties.

Variable getsizeof : pyval → Z.
Variable frames : nat.
Abbreviation sizeof := (deep_size getsizeof).
Abbreviation update := (update_data getsizeof frames).
Abbreviation within_reach := (within_reach getsizeof).

(** A refused or raising update leaves the dict as it was, an accepted one
    assigns the key. *)
Lemma update_data_cases key value (d : gmap string pyval) :
  update key value d = (Answer false, d)
  ∨ update key value d = (RecursionError, d)
  ∨ update key value d = (Answer true, <[key := value]> d)
    ∧ sizeof value < ENTRY_LIMIT
    ∧ sizeof (as_dict d) < TOTAL_LIMIT.
Proof.
  unfold update_data. rewrite !_get_size_spec.
  case_decide; [|by right; left].
  destruct (Z.leb_spec ENTRY_LIMIT (sizeof value)); [by left|].
  case_decide; [|by right; left].
  destruct (Z.leb_spec TOTAL_LIMIT (sizeof (as_dict d))); [by left|].
  by right; right.
Qed.

(** What a value of 25 MB or more comes to. *)
Lemma update_data_large key value (d : gmap string pyval) :
  ENTRY_LIMIT ≤ sizeof value →
  update key value d
  = (if decide (frames_needed value ≤ frames)%nat
     then Answer false else RecursionError, d).
Proof.
  intros Hbig. unfold update_data. rewrite _get_size_spec.
  case_decide; [|done].
  by destruct (Z.leb_spec ENTRY_LIMIT (sizeof value)); [|lia].
Qed.

(** C5, amended. A value whose recursively computed size is 25 MB or more
    is never stored.  When its nesting fits in the frames the interpreter
    has left, [update_data] returns [False]; when it is nested more deeply,
    [_get_size] raises [RecursionError] and so does [update_data].  Either
    way the dict is exactly what it was. *)
Theorem update_data_rejects_large key value (d : gmap string pyval) :
  ENTRY_LIMIT ≤ sizeof value →
  update key value d
  = (if decide (frames_needed value ≤ frames)%nat
     then Answer false else RecursionError, d).
Proof. apply update_data_large. Qed.

(** Below the entry limit and within the frames left, only the dict's size
    before the assignment decides. *)
Lemma update_data_small key value (d : gmap string pyval) :
  (frames_needed value ≤ frames)%nat →
  (frames_needed (as_dict d) ≤ frames)%nat →
  sizeof value < ENTRY_LIMIT →
  update key value d
  = if TOTAL_LIMIT <=? sizeof (as_dict d)
    then (Answer false, d)
    else (Answer true, <[key := value]> d).
Proof.
  intros Hv Hd Hsmall. unfold update_data.
  rewrite !_get_size_fits by done.
  by destruct (Z.leb_spec ENTRY_LIMIT (sizeof value)); [lia|].
Qed.

(** [delete_data] on a present and on an absent key. *)
Lemma delete_data_present key (d : gmap string pyval) :
  is_Some (d !! key) → delete_data key d = (true, delete key d).
Proof. intros Hk. unfold delete_data. by rewrite bool_decide_eq_true_2. Qed.

Lemma delete_data_absent key (d : gmap string pyval) :
  d !! key = None → delete_data key d = (false, d).
Proof.
  intros Hk. unfold delete_data. rewrite bool_decide_eq_false_2; [done|].
  rewrite Hk. by intros [? ?].
Qed.

Lemma delete_data_dict key (d : gmap string pyval) :
  (delete_data key d).2 = delete key d.
Proof.
  destruct (d !! key) as [old|] eqn:Hk.
  - by rewrite delete_data_present.
  - rewrite delete_data_absent by done. simpl. by rewrite delete_id.
Qed.

Lemma within_reach_empty : within_reach ∅.
Proof.
  split; [apply map_Forall_empty|].
  rewrite values_size_eq, map_to_list_empty. by vm_compute.
Qed.

Lemma within_reach_serve (d : gmap string pyval) (r : request) :
  (∀ v, 0 ≤ getsizeof v) →
  within_reach d → within_reach (serve getsizeof frames d r).
Proof.
  intros Hpos [Hall Hsum]. destruct r as [key value|key]; simpl.
  - destruct (update_data_cases key value d)
      as [->|[->|(-> & Hv & Htot)]]; [by split..|]. simpl. split.
    + by apply map_Forall_insert_2.
    + pose proof (values_size_insert_le getsizeof Hpos d key value).
      pose proof (values_size_le_total getsizeof Hpos d). lia.
  - rewrite delete_data_dict. split.
    + by apply map_Forall_delete.
    + pose proof (values_size_delete_le getsizeof Hpos d key). lia.
Qed.

Lemma within_reach_foldl (rs : list request) (d : gmap string pyval) :
  (∀ v, 0 ≤ getsizeof v) →
  within_reach d → within_reach (foldl (serve getsizeof frames) d rs).
Proof.
  intros Hpos. revert d.
  induction rs as [|r rs IH]; intros d Hd; simpl; [done|].
  by apply IH, within_reach_serve.
Qed.

(** How far the store can grow: in every dict reachable from the empty one
    each value is below 25 MB, and the values together stay below 75 MB,
    the 50 MB at which the check stops further writes plus one value. *)
Lemma reachable_reach (rs : list request) :
  (∀ v, 0 ≤ getsizeof v) →
  map_Forall (λ _ v, sizeof v < ENTRY_LIMIT) (serve_all getsizeof frames rs)
  ∧ values_size getsizeof (serve_all getsizeof frames rs)
    < TOTAL_LIMIT + ENTRY_LIMIT.
Proof.
  intros Hpos. apply (within_reach_foldl rs ∅ Hpos), within_reach_empty.
Qed.

(** C3, amended. An accepted [update_data(key, None)] does not remove the
    entry: the key is still in the dict, bound to [None], and the dict's
    size still counts the key and [None]; only [delete_data] takes the key
    out.  The client's [read_data] answers [None] after either. *)
Theorem update_with_None_keeps_key key (d d' : gmap string pyval) :
  update key VNone d = (Answer true, d') →
  get_data d' !! key = Some VNone
  ∧ sizeof (as_dict d')
    = getsizeof (as_dict d') + entry_size getsizeof (key, VNone)
      + sum (map (entry_size getsizeof) (map_to_list (delete key d)))
  ∧ get_data (delete_data key d).2 !! key = None
  ∧ ∀ c w, read_data c (with_data w d') key = VNone
           ∧ read_data c (with_data w (delete_data key d).2) key = VNone.
Proof.
  intros Hup.
  destruct (update_data_cases key VNone d) as [Hno|[Hno|(Hyes & _ & _)]];
    [congruence..|].
  assert (d' = <[key := VNone]> d) as -> by congruence.
  unfold get_data. rewrite delete_data_dict. split_and!.
  - apply lookup_insert_eq.
  - rewrite deep_size_as_dict, entries_insert. lia.
  - apply lookup_delete_eq.
  - intros c w. unfold read_data, get_data. simpl.
    rewrite lookup_insert_eq, lookup_delete_eq.
    split; repeat case_match; done.
Qed.

(** C6. Right after a successful [update_data(key, v)] the dict that
    [get_data] returns binds [key] to [v]; after [delete_data(key)] it has
    no binding for [key]; [delete_data] answers [True] exactly when the key
    was bound before the call, and leaves every other key as it was. *)
Theorem get_after_update_and_delete key v (d : gmap string pyval) :
  ((update key v d).1 = Answer true →
   get_data (update key v d).2 !! key = Some v)
  ∧ get_data (delete_data key d).2 !! key = None
  ∧ ((delete_data key d).1 = true ↔ is_Some (d !! key))
  ∧ (∀ k, k ≠ key → get_data (delete_data key d).2 !! k = d !! k).
Proof.
  unfold get_data. rewrite delete_data_dict. split_and!.
  - destruct (update_data_cases key v d) as [->|[->|(-> & _ & _)]]; simpl;
      [done..|]. intros _. apply lookup_insert_eq.
  - apply lookup_delete_eq.
  - unfold delete_data. case_bool_decide; simpl; split; done.
  - intros k Hk. by apply lookup_delete_ne.
Qed.

End store_properties.

(** ** The store on the concrete interpreter *)

Lemma max_list_bound {B} (h : B → nat) (l : list B) (n : nat) :
  Forall (λ x, (h x ≤ n)%nat) l → (max_list (map h l) ≤ n)%nat.
Proof.
  induction 1 as [|x l Hx _ IH]; [simpl; lia|].
  change (max_list (map h (x :: l)))
    with (h x `max` max_list (map h l))%nat.
  lia.
Qed.

(** A dict of values that are no containers takes three frames to size, or
    two when it is empty. *)
Lemma frames_needed_flat (d : gmap string pyval) :
  map_Forall (λ _ v, frames_needed v = 1%nat) d →
  (frames_needed (as_dict d) ≤ 3)%nat.
Proof.
  intros Hd. unfold as_dict. cbn [frames_needed].
  match goal with |- (2 + ?m ≤ 3)%nat => assert (m ≤ 1)%nat; [|lia] end.
  apply max_list_bound, Forall_map, Forall_forall. intros [k v] Hkv.
  apply elem_of_map_to_list in Hkv. cbn [fst snd frames_needed].
  rewrite (Hd k v Hkv). lia.
Qed.

Lemma frames_needed_blob : frames_needed blob = 1%nat.
Proof. reflexivity. Qed.

Lemma update_blob_accepted key (d : gmap string pyval) :
  map_Forall (λ _ v, frames_needed v = 1%nat) d →
  deep_size cpython_getsizeof (as_dict d) < TOTAL_LIMIT →
  update_data cpython_getsizeof recursion_limit key blob d
  = (Answer true, <[key := blob]> d).
Proof.
  intros Hflat Htot. rewrite update_data_small.
  - by destruct (Z.leb_spec TOTAL_LIMIT
                   (deep_size cpython_getsizeof (as_dict d))); [lia|].
  - rewrite frames_needed_blob. unfold recursion_limit. lia.
  - pose proof (frames_needed_flat d Hflat). unfold recursion_limit. lia.
  - rewrite blob_size. by vm_compute.
Qed.

Lemma one_blob_total :
  deep_size cpython_getsizeof (as_dict (<["a" := blob]> ∅)) = 25166139.
Proof.
  rewrite insert_empty, deep_size_as_dict. unfold as_dict.
  rewrite map_to_list_singleton. unfold entry_size. cbn [map fst snd].
  rewrite sum_cons, blob_size. reflexivity.
Qed.

Lemma two_blobs_flat :
  map_Forall (λ _ v, frames_needed v = 1%nat) two_blobs.
Proof.
  unfold two_blobs. repeat apply map_Forall_insert_2; done.
Qed.

Lemma three_blobs_flat :
  map_Forall (λ _ v, frames_needed v = 1%nat) three_blobs.
Proof.
  unfold three_blobs. apply map_Forall_insert_2; [done|].
  apply two_blobs_flat.
Qed.

(** Three 24 MiB payloads written one after the other are all accepted. *)
Lemma serve_three_blobs :
  serve_all cpython_getsizeof recursion_limit
    [Update "a" blob; Update "b" blob; Update "c" blob]
  = three_blobs.
Proof.
  unfold serve_all. cbn [foldl serve].
  rewrite (update_blob_accepted "a");
    [|apply map_Forall_empty|by vm_compute].
  cbn [snd]. rewrite (update_blob_accepted "b");
    [|apply map_Forall_insert_2; [done|apply map_Forall_empty]
     |rewrite one_blob_total; by vm_compute].
  cbn [snd]. fold two_blobs. rewrite (update_blob_accepted "c");
    [|apply two_blobs_flat|rewrite two_blobs_total; by vm_compute].
  reflexivity.
Qed.

Lemma three_blobs_values :
  values_size cpython_getsizeof three_blobs = 75497571.
Proof.
  rewrite values_size_eq. unfold three_blobs, two_blobs.
  rewrite three_entries. cbn [map snd]. rewrite !sum_cons, blob_size.
  reflexivity.
Qed.

Lemma deep_size_nest (n : nat) (obj : pyval) :
  deep_size cpython_getsizeof obj
  ≤ deep_size cpython_getsizeof (nest n obj).
Proof.
  induction n as [|n IH]; [done|].
  unfold nest in *. rewrite Nat.iter_succ. cbn [deep_size map].
  rewrite !sum_cons. unfold sum. cbn [foldr cpython_getsizeof].
  unfold len. cbn [length]. lia.
Qed.

(** C5 fails as written: a 25 MiB payload wrapped in 600 lists still
    pickles, but sizing it takes 1201 frames, more than the recursion limit
    leaves; [update_data] raises [RecursionError] instead of returning
    [False]. *)
Lemma large_is_refused_fails :
  ¬ large_is_refused cpython_getsizeof recursion_limit ∅ "storePath"
      (nest 600 (zeros (25 * MB))).
Proof.
  intros H.
  assert (ENTRY_LIMIT
          ≤ deep_size cpython_getsizeof (nest 600 (zeros (25 * MB))))
    as Hbig.
  { etrans; [|apply deep_size_nest].
    rewrite zeros_size; unfold MB, ENTRY_LIMIT; lia. }
  specialize (H Hbig). rewrite update_data_large in H by done.
  rewrite frames_needed_nest in H. unfold recursion_limit in H.
  case_decide; [lia|discriminate H].
Qed.

(** The large-value rule at a flat 25 MiB payload: it is refused, and
    nothing is raised. *)
Lemma update_data_rejects_large_witness :
  ENTRY_LIMIT ≤ deep_size cpython_getsizeof (zeros (25 * MB))
  ∧ update_data cpython_getsizeof recursion_limit "storePath"
      (zeros (25 * MB)) two_blobs
    = (if decide (frames_needed (zeros (25 * MB)) ≤ recursion_limit)%nat
       then Answer false else RecursionError, two_blobs).
Proof.
  assert (ENTRY_LIMIT ≤ deep_size cpython_getsizeof (zeros (25 * MB))) as H.
  { rewrite zeros_size; unfold MB, ENTRY_LIMIT; lia. }
  split; [exact H|].
  exact (update_data_rejects_large cpython_getsizeof recursion_limit
           "storePath" (zeros (25 * MB)) two_blobs H).
Defined.

(** C1 at its failing input: with two 24 MiB payloads stored (48 MiB and a
    little), a third one is below the entry limit and would bring the total
    to 72 MiB, yet [update_data] accepts it. *)
Lemma update_checks_new_total_fails :
  ¬ update_checks_new_total cpython_getsizeof recursion_limit two_blobs
      "c" blob.
Proof.
  unfold update_checks_new_total. intros H.
  rewrite update_blob_accepted in H;
    [|apply two_blobs_flat|rewrite two_blobs_total; by vm_compute].
  fold three_blobs in H. rewrite three_blobs_total in H.
  assert (deep_size cpython_getsizeof blob < ENTRY_LIMIT) as Hsmall
    by (rewrite blob_size; by vm_compute).
  specialize (H Hsmall).
  change (TOTAL_LIMIT <=? 75497953) with true in H. simpl in H.
  discriminate H.
Qed.

(** C2 at its failing input: after three accepted 24 MiB updates the values
    add up to 72 MiB. *)
Lemma within_quotas_fails :
  ¬ within_quotas cpython_getsizeof
      (serve_all cpython_getsizeof recursion_limit
         [Update "a" blob; Update "b" blob; Update "c" blob]).
Proof.
  rewrite serve_three_blobs. intros [_ Hsum].
  rewrite three_blobs_values in Hsum. revert Hsum. by vm_compute.
Qed.

(** C3 fails as written: writing [None] under a key of the empty store
    leaves the key in the dict. *)
Lemma sentinel_removes_fails :
  ¬ sentinel_removes cpython_getsizeof recursion_limit ∅
      "recording_command".
Proof. intros [H _]. vm_compute in H. discriminate H. Qed.

Lemma update_with_None_keeps_key_witness :
  update_data cpython_getsizeof recursion_limit "recording_command" VNone
    {["recording_command" := VBool true]}
  = (Answer true, {["recording_command" := VNone]})
  ∧ get_data {["recording_command" := VNone]} !! "recording_command"
    = Some VNone.
Proof.
  assert (update_data cpython_getsizeof recursion_limit
            "recording_command" VNone {["recording_command" := VBool true]}
          = (Answer true, {["recording_command" := VNone]})) as H
    by (vm_compute; reflexivity).
  split; [exact H|].
  exact (proj1 (update_with_None_keeps_key cpython_getsizeof recursion_limit
                  "recording_command" _ _ H)).
Defined.

Lemma get_after_update_and_delete_witness :
  (update_data cpython_getsizeof recursion_limit "storePath"
     (VStr "/data/") ∅).1 = Answer true
  ∧ get_data (update_data cpython_getsizeof recursion_limit "storePath"
                (VStr "/data/") ∅).2
      !! "storePath" = Some (VStr "/data/").
Proof.
  assert ((update_data cpython_getsizeof recursion_limit "storePath"
             (VStr "/data/") ∅).1 = Answer true) as H
    by (vm_compute; reflexivity).
  split; [exact H|].
  exact (proj1 (get_after_update_and_delete cpython_getsizeof
                  recursion_limit "storePath" (VStr "/data/") ∅) H).
Defined.

(** ** The client *)

Lemma with_data_id (w : Server) : with_data w (data w) = w.
Proof. by destruct w. Qed.

Lemma read_data_unset (c : PythonServer) (w : Server) key :
  shared_data c = None → read_data c w key = VNone.
Proof. intros Hc. unfold read_data. by rewrite Hc. Qed.

Lemma read_data_lookup (c : PythonServer) (w : Server) key :
  read_data c w key
  = match shared_data c with
    | None => VNone
    | Some _ => if link_ok w then default VNone (data w !! key) else VNone
    end.
Proof.
  unfold read_data, get_data. destruct (shared_data c); [|done].
  destruct (link_ok w); [|done]. case_bool_decide as Hk; [done|].
  destruct (data w !! key) eqn:E; [|done]. destruct Hk. by eexists.
Qed.

(** A read that answers something other than [None] went through a held
    proxy and a working link. *)
Lemma read_data_answer (c : PythonServer) (w : Server) key v :
  read_data c w key = v → v ≠ VNone →
  is_Some (shared_data c) ∧ link_ok w = true ∧ data w !! key = Some v.
Proof.
  rewrite read_data_lookup. intros Hr Hv.
  destruct (shared_data c); [|congruence].
  destruct (link_ok w); [|congruence].
  destruct (data w !! key); simpl in Hr; [|congruence].
  split_and!; [by eexists|done|congruence].
Qed.

Section client_properties.

Variable getsizeof : pyval → Z.
Variable frames : nat.
Abbreviation write := (write_data getsizeof frames).
Abbreviation calls := (do_calls getsizeof frames).

Lemma write_data_unset (c : PythonServer) (w : Server) key value :
  shared_data c = None → write c w key value = w.
Proof. intros Hc. unfold write_data. by rewrite Hc. Qed.

(** A write leaves the server as it was, or assigns the key in its dict. *)
Lemma write_data_cases (c : PythonServer) (w : Server) key value :
  write c w key value = w
  ∨ write c w key value = with_data w (<[key := value]> (data w))
    ∧ deep_size getsizeof value < ENTRY_LIMIT
    ∧ deep_size getsizeof (as_dict (data w)) < TOTAL_LIMIT.
Proof.
  unfold write_data. destruct (shared_data c); [|by left].
  destruct (link_ok w); [|by left].
  destruct (update_data_cases getsizeof frames key value (data w))
    as [->|[->|(-> & ? & ?)]];
    [left; apply with_data_id|by left|by right].
Qed.

Lemma write_data_link (c : PythonServer) (w : Server) key value :
  link_ok (write c w key value) = link_ok w.
Proof. by destruct (write_data_cases c w key value) as [->|[-> _]]. Qed.

(** A write to a store that is at its total limit changes nothing. *)
Lemma write_data_refused (c : PythonServer) (w : Server) key value :
  TOTAL_LIMIT ≤ deep_size getsizeof (as_dict (data w)) →
  write c w key value = w.
Proof.
  intros Hfull.
  destruct (write_data_cases c w key value) as [->|(_ & _ & ?)];
    [done|lia].
Qed.

(** A write of a small value to a store below its total limit goes in,
    when the frames left cover the value and the dict. *)
Lemma write_data_accepted (c : PythonServer) (w : Server) key value :
  is_Some (shared_data c) → link_ok w = true →
  (frames_needed value ≤ frames)%nat →
  (frames_needed (as_dict (data w)) ≤ frames)%nat →
  deep_size getsizeof value < ENTRY_LIMIT →
  deep_size getsizeof (as_dict (data w)) < TOTAL_LIMIT →
  write c w key value = with_data w (<[key := value]> (data w)).
Proof.
  intros [p Hc] Hl Hfv Hfd Hv Htot. unfold write_data. rewrite Hc, Hl.
  rewrite update_data_small by done.
  by destruct (Z.leb_spec TOTAL_LIMIT
                 (deep_size getsizeof (as_dict (data w)))); [lia|].
Qed.

(** A remote call that raises is caught: the read answers [None], the
    write leaves the server alone. *)
Lemma link_down (c : PythonServer) (w : Server) key value :
  link_ok w = false →
  read_data c w key = VNone ∧ write c w key value = w.
Proof.
  intros Hl. unfold read_data, write_data. rewrite Hl.
  by destruct (shared_data c).
Qed.

(** Without a proxy, any sequence of calls answers [None] every time and
    leaves the server alone. *)
Lemma do_calls_unset (c : PythonServer) (w : Server) (ops : list call) :
  shared_data c = None →
  calls c w ops = (replicate (length ops) VNone, w).
Proof.
  intros Hc. induction ops as [|op ops IH]; [done|].
  cbn [do_calls]. destruct op as [key|key value]; cbn [do_call].
  - by rewrite read_data_unset, IH.
  - by rewrite write_data_unset, IH.
Qed.

(** C7. When connecting raises ([ConnectionRefusedError] or any other
    exception), [__init__] still returns and the proxy is left unset; from
    then on every [read_data] answers [None] and every [write_data] leaves
    the server untouched, for any number of calls in any order. *)
Theorem failed_connect_degrades (o : connect_outcome) (w : Server)
    (ops : list call) :
  o ≠ Connects →
  shared_data (PythonServer_init o) = None
  ∧ calls (PythonServer_init o) w ops = (replicate (length ops) VNone, w).
Proof.
  intros Ho.
  assert (shared_data (PythonServer_init o) = None) as Hc
    by by destruct o.
  split; [exact Hc|]. by apply do_calls_unset.
Qed.

Lemma close_close (c : PythonServer) : close (close c) = close c.
Proof. by destruct c as [[m|] p]. Qed.

(** C9. After the first [close()] of a client, any number of further
    [close()] calls returns and changes nothing; the closed client holds no
    proxy, so every [read_data] answers [None] and every [write_data] leaves
    the server untouched, exactly as for a client that never connected. *)
Theorem close_idempotent (o : connect_outcome) (n : nat) (w : Server)
    (ops : list call) :
  let c := close (PythonServer_init o) in
  Nat.iter n close c = c
  ∧ shared_data c = None
  ∧ calls c w ops = (replicate (length ops) VNone, w)
  ∧ calls c w ops
    = calls (PythonServer_init RaisesConnectionRefusedError) w ops.
Proof.
  intros c. assert (shared_data c = None) as Hc by done.
  split_and!.
  - induction n as [|n IH]; [done|]. by rewrite Nat.iter_succ, IH.
  - exact Hc.
  - by apply do_calls_unset.
  - by rewrite !do_calls_unset.
Qed.

End client_properties.

(** ** The polling bridge *)

Section bridge_properties.

Variable getsizeof : pyval → Z.
Variable frames : nat.
Variable now : string.
Variable h5py_File create_datasets : string → bool.
Abbreviation toggle :=
  (toggle_logging getsizeof frames now h5py_File create_datasets).
Abbreviation poll :=
  (external_toggle_logging getsizeof frames now h5py_File create_datasets).

(** [toggle_logging], when it returns, has flipped [is_logging] and kept the
    client and the link. *)
Lemma toggle_logging_returns (g g1 : GUI) (w w1 : Server) :
  toggle g w = Returns (g1, w1) →
  is_logging g1 = negb (is_logging g)
  ∧ server g1 = server g
  ∧ link_ok w1 = link_ok w.
Proof.
  unfold toggle_logging. destruct (is_logging g); simpl.
  - intros [= <- <-]. by rewrite write_data_link.
  - repeat case_match; intros [= <- <-]; by rewrite write_data_link.
Qed.

(** C8. A poll cycle that reads the sentinel, or reads [True] while logging
    is on, or reads [False] while logging is off, returns with the window
    and the server exactly as they were: no local transition, and the stored
    [recording_command] is not written. *)
Theorem poll_without_transition (g : GUI) (w : Server) :
  read_data (server g) w "recording_command" = VNone
  ∨ read_data (server g) w "recording_command" = VBool true
    ∧ is_logging g = true
  ∨ read_data (server g) w "recording_command" = VBool false
    ∧ is_logging g = false →
  poll g w = Returns (g, w).
Proof.
  unfold external_toggle_logging.
  intros [->|[[-> ->]|[-> ->]]]; reflexivity.
Qed.

Lemma poll_on_None (g : GUI) (w : Server) :
  read_data (server g) w "recording_command" = VNone →
  poll g w = Returns (g, w).
Proof. intros Hr. unfold external_toggle_logging. by rewrite Hr. Qed.

(** C10. Through [read_data] a key that is not in the store and a key that
    is bound to [None] look the same: both reads answer [None].  For the
    key [recording_command] the poll cycle, which sees the store through
    that read only, returns with nothing changed over either store. *)
Theorem read_data_None_ambiguous (g : GUI) (w1 w2 : Server) key :
  data w1 !! key = None →
  data w2 !! key = Some VNone →
  read_data (server g) w1 key = VNone
  ∧ read_data (server g) w2 key = VNone
  ∧ (key = "recording_command" →
     poll g w1 = Returns (g, w1) ∧ poll g w2 = Returns (g, w2)).
Proof.
  intros H1 H2.
  assert (read_data (server g) w1 key = VNone) as Hr1
    by (rewrite read_data_lookup, H1; by repeat case_match).
  assert (read_data (server g) w2 key = VNone) as Hr2
    by (rewrite read_data_lookup, H2; by repeat case_match).
  split_and!; [done..|]. intros ->. by rewrite !poll_on_None.
Qed.

(** Starting to log when no [storePath] is set and the file opens. *)
Lemma toggle_logging_start (g : GUI) (w : Server) :
  is_logging g = false →
  read_data (server g) w "storePath" = VNone →
  h5py_File ("daq_data_" +:+ now +:+ ".h5") = true →
  create_datasets ("daq_data_" +:+ now +:+ ".h5") = true →
  toggle g w
  = Returns ({| is_logging := true;
                h5_file := Some ("daq_data_" +:+ now +:+ ".h5");
                btn_log := "Stop Logging"; server := server g |},
             write_data getsizeof frames (server g) w "recording" (VInt 1)).
Proof.
  intros Hlog Hpath Hfile Hsets. unfold toggle_logging.
  rewrite Hlog, Hpath. cbn [negb is_None]. by rewrite Hfile, Hsets.
Qed.

(** With room in the store the command is acknowledged: a poll cycle that
    reads the command [True] while logging is off (or [False] while it is
    on) runs [toggle_logging]; when that returns and the store is then
    below its 50 MB total, the write of [None] is accepted, the store binds
    [recording_command] to [None], and the next read of it answers
    [None]. *)
Lemma poll_acknowledges_with_room (g g1 : GUI) (w w1 : Server) (b : bool) :
  getsizeof VNone < ENTRY_LIMIT →
  (1 ≤ frames)%nat →
  (frames_needed (as_dict (data w1)) ≤ frames)%nat →
  read_data (server g) w "recording_command" = VBool b →
  is_logging g = negb b →
  toggle g w = Returns (g1, w1) →
  deep_size getsizeof (as_dict (data w1)) < TOTAL_LIMIT →
  ∃ w',
    poll g w = Returns (g1, w')
    ∧ is_logging g1 = b
    ∧ data w' = <["recording_command" := VNone]> (data w1)
    ∧ read_data (server g1) w' "recording_command" = VNone.
Proof.
  intros HNone Hf1 Hfd Hread Hlog Htog Htot.
  destruct (read_data_answer _ _ _ _ Hread) as (Hc & Hl & _); [done|].
  destruct (toggle_logging_returns _ _ _ _ Htog) as (Hlog1 & Hsrv & Hl1).
  exists (with_data w1 (<["recording_command" := VNone]> (data w1))).
  split_and!.
  - unfold external_toggle_logging. rewrite Hread, Hlog, Htog.
    rewrite write_data_accepted.
    + by destruct b.
    + by rewrite Hsrv.
    + by rewrite Hl1.
    + done.
    + done.
    + done.
    + done.
  - rewrite Hlog1, Hlog. by destruct b.
  - done.
  - rewrite read_data_lookup. simpl. rewrite lookup_insert_eq.
    by repeat case_match.
Qed.

(** At a store that is at its total limit, a poll cycle that runs
    [toggle_logging] leaves the server as it was: neither the status flag
    nor the sentinel is written. *)
Lemma poll_at_limit (g g1 : GUI) (w w1 : Server) :
  TOTAL_LIMIT ≤ deep_size getsizeof (as_dict (data w)) →
  toggle g w = Returns (g1, w1) →
  w1 = w
  ∧ write_data getsizeof frames (server g1) w1 "recording_command" VNone
    = w.
Proof.
  intros Hfull Htog. assert (w1 = w) as ->.
  { revert Htog. unfold toggle_logging.
    destruct (is_logging g); simpl; repeat case_match;
      intros Htog; inversion Htog; by rewrite write_data_refused. }
  by rewrite write_data_refused.
Qed.

(** Over such a store a start command is obeyed but stays in the store. *)
Lemma poll_start_at_limit (g : GUI) (w : Server) :
  TOTAL_LIMIT ≤ deep_size getsizeof (as_dict (data w)) →
  read_data (server g) w "recording_command" = VBool true →
  read_data (server g) w "storePath" = VNone →
  is_logging g = false →
  h5py_File ("daq_data_" +:+ now +:+ ".h5") = true →
  create_datasets ("daq_data_" +:+ now +:+ ".h5") = true →
  poll g w
  = Returns ({| is_logging := true;
                h5_file := Some ("daq_data_" +:+ now +:+ ".h5");
                btn_log := "Stop Logging"; server := server g |}, w).
Proof.
  intros Hfull Hread Hpath Hlog Hfile Hsets.
  pose proof (toggle_logging_start g w Hlog Hpath Hfile Hsets) as Htog.
  destruct (poll_at_limit _ _ _ _ Hfull Htog) as [Hw1 Hw2].
  unfold external_toggle_logging.
  rewrite Hread, Hlog, Htog. cbn [negb is_None truthy andb].
  by rewrite Hw2.
Qed.

End bridge_properties.

(** ** The client and the bridge on the concrete interpreter *)

Lemma three_blobs_lookup key :
  key ≠ "a" → key ≠ "b" → key ≠ "c" → three_blobs !! key = None.
Proof.
  intros Ha Hb Hc. unfold three_blobs, two_blobs.
  rewrite !lookup_insert_ne by done. apply lookup_empty.
Qed.

Lemma full_server_total :
  TOTAL_LIMIT ≤ deep_size cpython_getsizeof (as_dict (data full_server)).
Proof.
  pose proof (values_size_le_total cpython_getsizeof
                cpython_getsizeof_nonneg (data full_server)) as Hle.
  rewrite values_size_eq in Hle. unfold full_server in Hle.
  cbn [data] in Hle.
  rewrite entries_insert_fresh in Hle by by apply three_blobs_lookup.
  rewrite <- values_size_eq, three_blobs_values in Hle.
  pose proof (deep_size_nonneg cpython_getsizeof cpython_getsizeof_nonneg
                (VBool true)) as Hpos.
  cbn [snd] in Hle. unfold TOTAL_LIMIT. unfold full_server. cbn [data]. lia.
Qed.

Lemma cpython_dict_le (d : gmap string pyval) :
  cpython_getsizeof (as_dict d) ≤ 640.
Proof. unfold as_dict, cpython_getsizeof. repeat case_match; lia. Qed.

Lemma total_insert_fresh_le (d : gmap string pyval) key value :
  d !! key = None →
  deep_size cpython_getsizeof (as_dict (<[key := value]> d))
  ≤ 640 + entry_size cpython_getsizeof (key, value)
    + sum (map (entry_size cpython_getsizeof) (map_to_list d)).
Proof.
  intros Hk. rewrite deep_size_as_dict, entries_insert_fresh by done.
  pose proof (cpython_dict_le (<[key := value]> d)). lia.
Qed.

Lemma blob_entry key :
  entry_size cpython_getsizeof (key, blob)
  = 49 + Z.of_nat (String.length key) + 25165857.
Proof. unfold entry_size. cbn [fst snd]. by rewrite blob_size. Qed.

(** The store of [full_server] is what four accepted updates leave. *)
Lemma full_server_reachable :
  serve_all cpython_getsizeof recursion_limit
    [Update "recording_command" (VBool true);
     Update "a" blob; Update "b" blob; Update "c" blob]
  = data full_server.
Proof.
  unfold serve_all. cbn [foldl serve].
  assert (update_data cpython_getsizeof recursion_limit
            "recording_command" (VBool true) ∅
          = (Answer true, <["recording_command" := VBool true]> ∅)) as ->
    by (vm_compute; reflexivity).
  cbn [snd].
  set (d0 := <["recording_command" := VBool true]> (∅ : gmap string pyval)).
  assert (map_Forall (λ _ v, frames_needed v = 1%nat) d0) as Hf0
    by (apply map_Forall_insert_2; [done|apply map_Forall_empty]).
  assert (sum (map (entry_size cpython_getsizeof) (map_to_list d0)) = 94)
    as Hd0 by (vm_compute; reflexivity).
  rewrite (update_blob_accepted "a"); [|exact Hf0|].
  2:{ rewrite deep_size_as_dict, Hd0.
      pose proof (cpython_dict_le d0). unfold TOTAL_LIMIT. lia. }
  cbn [snd]. rewrite (update_blob_accepted "b");
    [|by apply map_Forall_insert_2|].
  2:{ pose proof (total_insert_fresh_le d0 "a" blob) as Hle.
      rewrite blob_entry, Hd0 in Hle. cbn [String.length] in Hle.
      specialize (Hle ltac:(by vm_compute)). unfold TOTAL_LIMIT. lia. }
  cbn [snd]. rewrite (update_blob_accepted "c");
    [|by repeat apply map_Forall_insert_2|].
  2:{ pose proof (total_insert_fresh_le (<["a" := blob]> d0) "b" blob)
        as Hle.
      rewrite (entries_insert_fresh _ d0) in Hle by by vm_compute.
      rewrite !blob_entry, Hd0 in Hle. cbn [String.length] in Hle.
      rewrite lookup_insert_ne in Hle by done.
      specialize (Hle ltac:(by vm_compute)). unfold TOTAL_LIMIT. lia. }
  cbn [snd]. unfold full_server, three_blobs, two_blobs, d0. cbn [data].
  apply map_eq. intros k.
  rewrite !lookup_insert. repeat case_decide; congruence.
Qed.

Lemma full_server_reads key :
  read_data (PythonServer_init Connects) full_server key
  = default VNone (data full_server !! key).
Proof. by rewrite read_data_lookup. Qed.

(** C4 at its failing input: over a store at its total limit the start
    command is obeyed, but the write of [None] is refused and
    [recording_command] still reads [True]. *)
Lemma poll_acknowledges_fails :
  ¬ poll_acknowledges cpython_getsizeof recursion_limit stamp always always
      fresh_gui full_server true.
Proof.
  assert (read_data (server fresh_gui) full_server "recording_command"
          = VBool true) as Hread.
  { unfold fresh_gui. cbn [server]. rewrite full_server_reads.
    unfold full_server. cbn [data]. by rewrite lookup_insert_eq. }
  assert (read_data (server fresh_gui) full_server "storePath" = VNone)
    as Hpath.
  { unfold fresh_gui. cbn [server]. rewrite full_server_reads.
    unfold full_server. cbn [data].
    rewrite lookup_insert_ne by done. by rewrite three_blobs_lookup. }
  intros H. destruct (H Hread eq_refl) as (g' & w' & Hpoll & _ & Hr).
  rewrite (poll_start_at_limit _ _ _ _ _ _ _ full_server_total Hread Hpath)
    in Hpoll by done.
  inversion Hpoll; subst g' w'. cbn [server] in Hr.
  unfold fresh_gui in Hread. cbn [server] in Hread. congruence.
Qed.

Lemma failed_connect_degrades_witness :
  RaisesConnectionRefusedError ≠ Connects
  ∧ length hundred_calls = 100%nat
  ∧ do_calls cpython_getsizeof recursion_limit
      (PythonServer_init RaisesConnectionRefusedError)
      (command_server false) hundred_calls
    = (replicate 100 VNone, command_server false).
Proof.
  assert (RaisesConnectionRefusedError ≠ Connects) as H by discriminate.
  split; [exact H|]. split; [reflexivity|].
  exact (proj2 (failed_connect_degrades cpython_getsizeof recursion_limit
                  RaisesConnectionRefusedError (command_server false)
                  hundred_calls H)).
Defined.

Lemma poll_without_transition_witness :
  read_data (server fresh_gui) (command_server false) "recording_command"
  = VBool false
  ∧ is_logging fresh_gui = false
  ∧ external_toggle_logging cpython_getsizeof recursion_limit stamp always always
      fresh_gui (command_server false)
    = Returns (fresh_gui, command_server false).
Proof.
  assert (read_data (server fresh_gui) (command_server false)
            "recording_command" = VBool false) as H
    by (vm_compute; reflexivity).
  split; [exact H|]. split; [reflexivity|].
  exact (poll_without_transition cpython_getsizeof recursion_limit stamp
           always always
           fresh_gui (command_server false)
           (or_intror (or_intror (conj H eq_refl)))).
Defined.

Lemma read_data_None_ambiguous_witness :
  read_data (server fresh_gui) {| data := ∅; link_ok := true |}
    "recording_command" = VNone
  ∧ read_data (server fresh_gui)
      {| data := {["recording_command" := VNone]}; link_ok := true |}
      "recording_command" = VNone.
Proof.
  destruct (read_data_None_ambiguous cpython_getsizeof recursion_limit
              stamp always always
              fresh_gui {| data := ∅; link_ok := true |}
              {| data := {["recording_command" := VNone]};
                 link_ok := true |}
              "recording_command")
    as (H1 & H2 & _); [reflexivity|vm_compute; reflexivity|].
  split; [exact H1|exact H2].
Defined.

(** * Further properties of the program *)

(** ** The store beyond its quotas *)

Section store_more.

Variable getsizeof : pyval → Z.
Variable frames : nat.
Abbreviation sizeof := (deep_size getsizeof).
Abbreviation update := (update_data getsizeof frames).
Abbreviation serve := (serve getsizeof frames).

Hypothesis getsizeof_nonneg : ∀ v, 0 ≤ getsizeof v.

Lemma elem_le_sum {A} (f : A → Z) (l : list A) (x : A) :
  (∀ y, 0 ≤ f y) → x ∈ l → f x ≤ sum (map f l).
Proof.
  intros Hf. induction 1 as [x l|x y l _ IH]; simpl; rewrite sum_cons.
  - assert (0 ≤ sum (map f l)); [|lia].
    apply sum_nonneg, Forall_map, Forall_forall. auto.
  - specialize (Hf y). lia.
Qed.

(** An object that occurs in a value weighs no more than the value. *)
Lemma occurs_in_size (y v : pyval) : occurs_in y v → sizeof y ≤ sizeof v.
Proof.
  pose proof (deep_size_nonneg getsizeof getsizeof_nonneg) as Hpos.
  induction 1 as [|xs x Hx _ IH|xs x Hx _ IH|xs x Hx _ IH
                  |kvs kv Hkv _ IH|kvs kv Hkv _ IH]; [lia|..];
    cbn [deep_size].
  1-3: pose proof (elem_le_sum sizeof xs x Hpos Hx);
       pose proof (getsizeof_nonneg (VList xs));
       pose proof (getsizeof_nonneg (VTuple xs));
       pose proof (getsizeof_nonneg (VSet xs)); lia.
  all: pose proof (elem_le_sum (λ kv, sizeof kv.1 + sizeof kv.2) kvs kv) as Hs;
       simpl in Hs;
       pose proof (getsizeof_nonneg (VDict kvs));
       pose proof (Hpos kv.1); pose proof (Hpos kv.2);
       assert (∀ y0 : pyval * pyval, 0 ≤ sizeof y0.1 + sizeof y0.2)
         by (intros y0; pose proof (Hpos y0.1); pose proof (Hpos y0.2); lia);
       specialize (Hs ltac:(done) Hkv); lia.
Qed.

(** X1. The entry check sees through containers: a value in which an
    object of 25 MB or more occurs, at whatever depth of lists, tuples,
    sets and dicts, is never stored.  [update_data] returns [False] when
    the nesting of the value fits in the frames the interpreter has left,
    and raises [RecursionError] when it does not; the store stays as it was
    either way. *)
Theorem update_data_rejects_nested key value y (d : gmap string pyval) :
  occurs_in y value →
  ENTRY_LIMIT ≤ sizeof y →
  update key value d
  = (if decide (frames_needed value ≤ frames)%nat
     then Answer false else RecursionError, d).
Proof.
  intros Hocc Hbig. pose proof (occurs_in_size y value Hocc).
  apply update_data_large. lia.
Qed.

End store_more.

Section store_sequences.

Variable getsizeof : pyval → Z.
Variable frames : nat.
Abbreviation sizeof := (deep_size getsizeof).
Abbreviation update := (update_data getsizeof frames).
Abbreviation run := (foldl (serve getsizeof frames)).

(** X2. A store whose size has reached 50 MB refuses every update, also
    one that would replace a value by a smaller one: whatever updates are
    sent, the store stays exactly as it is.  Only a delete can change it. *)
Theorem full_store_is_stuck (d : gmap string pyval) (rs : list request) :
  TOTAL_LIMIT ≤ sizeof (as_dict d) →
  Forall (λ r, is_update r = true) rs →
  run d rs = d.
Proof.
  intros Hfull. induction 1 as [|r rs Hr _ IH]; [done|].
  destruct r as [key value|key]; [|done]. cbn [foldl serve].
  destruct (update_data_cases getsizeof frames key value d)
    as [->|[->|(_ & _ & ?)]]; [exact IH..|lia].
Qed.

Lemma serve_other_key (d : gmap string pyval) (r : request) key :
  request_key r ≠ key → serve getsizeof frames d r !! key = d !! key.
Proof.
  intros Hk. destruct r as [k v|k]; simpl in *.
  - destruct (update_data_cases getsizeof frames k v d)
      as [->|[->|(-> & _ & _)]]; [done..|]. by apply lookup_insert_ne.
  - rewrite delete_data_dict. by apply lookup_delete_ne.
Qed.

(** X3. Requests touch only the key they name: after any sequence of
    updates and deletes, accepted or refused, a key that none of them names
    is bound as it was before, or still unbound. *)
Theorem other_keys_untouched (d : gmap string pyval) (rs : list request)
    key :
  Forall (λ r, request_key r ≠ key) rs →
  run d rs !! key = d !! key.
Proof.
  intros Hrs. revert d.
  induction Hrs as [|r rs Hr _ IH]; intros d; [done|].
  cbn [foldl]. by rewrite IH, serve_other_key.
Qed.

(** X4. Writing a new key and deleting it again is a round trip: when
    [key] is unbound and [update_data(key, value)] succeeds, the following
    [delete_data(key)] answers [True] and gives back the very store the
    update started from. *)
Theorem update_then_delete (d d' : gmap string pyval) key value :
  d !! key = None →
  update key value d = (Answer true, d') →
  delete_data key d' = (true, d).
Proof.
  intros Hfresh Hup.
  destruct (update_data_cases getsizeof frames key value d)
    as [Hno|[Hno|(Hyes & _)]]; [congruence..|].
  assert (d' = <[key := value]> d) as -> by congruence.
  rewrite delete_data_present by (rewrite lookup_insert_eq; by eexists).
  by rewrite delete_insert_id.
Qed.

(** X5. Deleting a key that is not bound answers [False] and changes
    nothing; in particular a second [delete_data] of the same key, right
    after the first, always answers [False]. *)
Theorem delete_data_missing (d : gmap string pyval) key :
  (d !! key = None → delete_data key d = (false, d))
  ∧ delete_data key (delete_data key d).2 = (false, (delete_data key d).2).
Proof.
  split; [apply delete_data_absent|].
  apply delete_data_absent. rewrite delete_data_dict. apply lookup_delete_eq.
Qed.

End store_sequences.

(** ** The client beyond the failed connection *)

Section client_more.

Variable getsizeof : pyval → Z.
Variable frames : nat.
Abbreviation sizeof := (deep_size getsizeof).
Abbreviation write := (write_data getsizeof frames).
Abbreviation calls := (do_calls getsizeof frames).

(** What a write leaves under each key: what was there, or, under the
    written key, the written value. *)
Lemma write_data_lookup (c : PythonServer) (w : Server) key value k :
  data (write c w key value) !! k = data w !! k
  ∨ k = key ∧ data (write c w key value) !! k = Some value.
Proof.
  destruct (write_data_cases getsizeof frames c w key value)
    as [->|(-> & _ & _)]; [by left|]. simpl.
  destruct (decide (k = key)) as [->|Hne].
  - right. by rewrite lookup_insert_eq.
  - left. by apply lookup_insert_ne.
Qed.

Lemma write_data_keeps_keys (c : PythonServer) (w : Server) key value k :
  is_Some (data w !! k) → is_Some (data (write c w key value) !! k).
Proof.
  intros Hk. destruct (write_data_lookup c w key value k) as [->|[_ ->]];
    [done|by eexists].
Qed.

(** X6. The client cannot take anything out of the store: after any
    sequence of [read_data] and [write_data] calls, every key that was
    bound is still bound. *)
Theorem client_never_removes (c : PythonServer) (w : Server)
    (ops : list call) key :
  is_Some (data w !! key) →
  is_Some (data (calls c w ops).2 !! key).
Proof.
  revert w. induction ops as [|op ops IH]; intros w Hk; [done|].
  cbn [do_calls]. destruct op as [k|k v]; cbn [do_call].
  - specialize (IH w Hk). by destruct (calls c w ops).
  - specialize (IH (write c w k v) (write_data_keeps_keys c w k v key Hk)).
    by destruct (calls c (write c w k v) ops).
Qed.


(** X8. While remote calls raise (the connection is lost), a client that
    did connect behaves like one that did not: every read answers [None],
    no write reaches the store, and nothing is raised to the caller. *)
Theorem lost_link_degrades (c : PythonServer) (w : Server)
    (ops : list call) :
  link_ok w = false →
  calls c w ops = (replicate (length ops) VNone, w).
Proof.
  intros Hl. induction ops as [|op ops IH]; [done|].
  cbn [do_calls].
  destruct op as [key|key value]; cbn [do_call];
    destruct (link_down getsizeof frames c w key VNone Hl) as [Hr _].
  - by rewrite Hr, IH.
  - destruct (link_down getsizeof frames c w key value Hl) as [_ ->].
    by rewrite IH.
Qed.

End client_more.

(** ** The bridge beyond one poll *)

Section bridge_more.

Variable getsizeof : pyval → Z.
Variable frames : nat.
Variable now : string.
Variable h5py_File create_datasets : string → bool.
Abbreviation sizeof := (deep_size getsizeof).
Abbreviation write := (write_data getsizeof frames).
Abbreviation toggle :=
  (toggle_logging getsizeof frames now h5py_File create_datasets).
Abbreviation poll :=
  (external_toggle_logging getsizeof frames now h5py_File create_datasets).
Abbreviation monitor :=
  (monitor_loop getsizeof frames now h5py_File create_datasets).

(** A read after a write answers as before, or, for the written key, the
    written value. *)
Lemma read_write_cases (c : PythonServer) (w : Server) key value k :
  read_data c (write c w key value) k = read_data c w k
  ∨ k = key ∧ read_data c (write c w key value) k = value.
Proof.
  rewrite !read_data_lookup, write_data_link.
  destruct (shared_data c); [|by left]. destruct (link_ok w); [|by left].
  destruct (write_data_lookup getsizeof frames c w key value k) as [->|[-> ->]];
    [by left|by right].
Qed.

(** What the command reads as once a poll has run [toggle_logging]: the
    sentinel, or the command as it was. *)
Lemma command_after_toggle (g g1 : GUI) (w w1 : Server) :
  toggle g w = Returns (g1, w1) →
  read_data (server g1) (write (server g1) w1 "recording_command" VNone)
    "recording_command" = VNone
  ∨ read_data (server g1) (write (server g1) w1 "recording_command" VNone)
      "recording_command"
    = read_data (server g) w "recording_command".
Proof.
  intros Htog.
  destruct (toggle_logging_returns _ _ _ _ _ _ _ _ _ Htog) as (_ & Hsrv & _).
  assert (∃ v, w1 = write (server g) w "recording" v) as [v Hw1].
  { revert Htog. unfold toggle_logging.
    destruct (is_logging g); simpl; repeat case_match;
      intros Htog; inversion Htog; by eexists. }
  assert (read_data (server g) w1 "recording_command"
          = read_data (server g) w "recording_command") as Hsame.
  { rewrite Hw1.
    by destruct (read_write_cases (server g) w "recording" v
                   "recording_command") as [->|[? _]]. }
  rewrite Hsrv, <- Hsame.
  destruct (read_write_cases (server g) w1 "recording_command" VNone
              "recording_command") as [->|[_ ->]]; [by right|by left].
Qed.

(** A poll that has returned is followed, if nobody writes in between, by a
    poll that does nothing. *)
Lemma poll_settles (g g1 : GUI) (w w1 : Server) :
  poll g w = Returns (g1, w1) → poll g1 w1 = Returns (g1, w1).
Proof.
  unfold external_toggle_logging at 1.
  destruct (is_None (read_data (server g) w "recording_command")) eqn:HN;
    cbn [negb].
  { intros [= <- <-]. unfold external_toggle_logging. by rewrite HN. }
  destruct (truthy (read_data (server g) w "recording_command")) eqn:HT;
    destruct (is_logging g) eqn:HL; cbn [negb andb];
    try (intros [= <- <-]; unfold external_toggle_logging;
         by rewrite HN, HT, HL).
  all: destruct (toggle g w) as [[g' w']|s] eqn:Htog; [|done];
    intros [= <- <-];
    destruct (toggle_logging_returns _ _ _ _ _ _ _ _ _ Htog)
      as (Hlog & _ & _);
    unfold external_toggle_logging;
    destruct (command_after_toggle _ _ _ _ Htog) as [->| ->]; [done|];
    by rewrite HN, HT, Hlog, HL.
Qed.

Lemma monitor_settled (n : nat) (g : GUI) (w : Server) :
  poll g w = Returns (g, w) → monitor n g w = Returns (g, w).
Proof.
  intros Hp. induction n as [|n IH]; [done|].
  cbn [monitor_loop]. by rewrite Hp.
Qed.

(** X9. A stored command is obeyed once.  However many turns the monitor
    loop makes while nobody else writes to the store, it leaves the window
    and the store as its first poll leaves them: the following polls do
    nothing, also when the sentinel could not be written back.  When the
    first poll raises, the loop ends there. *)
Theorem monitor_loop_acts_once (n : nat) (g : GUI) (w : Server) :
  monitor (S n) g w = poll g w.
Proof.
  cbn [monitor_loop]. destruct (poll g w) as [[g1 w1]|s] eqn:Hp; [|done].
  apply monitor_settled. by apply (poll_settles g g1 w w1).
Qed.


(** X11. A [storePath] that holds something other than a string or [None]
    breaks the start: [toggle_logging] raises at the concatenation, before
    any file is opened, with [is_logging] still off and nothing written; a
    poll that reads a start command raises the same way, the command stays
    in the store, and the monitor loop ends at its first turn. *)
Theorem bad_storePath_breaks_start (n : nat) (g : GUI) (w : Server) :
  is_logging g = false →
  is_None (read_data (server g) w "storePath") = false →
  (∀ p, read_data (server g) w "storePath" ≠ VStr p) →
  toggle g w = Raises (g, w)
  ∧ (truthy (read_data (server g) w "recording_command") = true →
     poll g w = Raises (g, w) ∧ monitor (S n) g w = Raises (g, w)).
Proof.
  intros Hlog HN Hstr.
  assert (toggle g w = Raises (g, w)) as Htog.
  { unfold toggle_logging. rewrite Hlog, HN. cbn [negb].
    destruct (read_data (server g) w "storePath"); try done.
    by destruct (Hstr s). }
  split; [done|]. intros HT.
  assert (poll g w = Raises (g, w)) as Hp.
  { unfold external_toggle_logging. rewrite HT, Hlog, Htog.
    destruct (read_data (server g) w "recording_command"); done. }
  split; [done|]. cbn [monitor_loop]. by rewrite Hp.
Qed.


End bridge_more.

(** ** The display buffer *)

Section buffer.

Context {A : Type}.
Implicit Types buf new : list A.

Lemma roll_back_length buf k : length (roll_back buf k) = length buf.
Proof.
  unfold roll_back. rewrite length_app, length_drop, length_take.
  destruct buf as [|x buf]; [simpl; lia|].
  pose proof (Nat.mod_upper_bound k (length (x :: buf))). simpl in *. lia.
Qed.

Lemma roll_back_short buf k :
  (k ≤ length buf)%nat → roll_back buf k = drop k buf ++ take k buf.
Proof.
  intros Hk. unfold roll_back.
  destruct (decide (k = length buf)) as [->|Hne].
  - destruct buf as [|x buf]; [done|].
    rewrite Nat.Div0.mod_same. rewrite drop_all, firstn_all. simpl.
    by rewrite app_nil_r.
  - by rewrite Nat.mod_small by lia.
Qed.

Lemma update_buffer_fits buf new :
  (0 < length new ≤ length buf)%nat →
  update_buffer buf new = Returns (drop (length new) buf ++ new).
Proof.
  intros [Hpos Hle]. unfold update_buffer, set_tail.
  rewrite roll_back_length, roll_back_short by done.
  rewrite (proj2 (Nat.eqb_neq _ 0)) by lia.
  rewrite Nat.min_l by done. rewrite Nat.eqb_refl.
  rewrite take_app_length'; [done|].
  rewrite length_drop. lia.
Qed.

(** X13. Pushing a chunk that is not empty and not longer than the buffer
    makes the buffer a sliding window: the oldest samples, as many as the
    chunk has, are dropped, the rest move to the front in their order, and
    the chunk is placed at the end. *)
Theorem update_buffer_slides buf new :
  (0 < length new ≤ length buf)%nat →
  update_buffer buf new = Returns (drop (length new) buf ++ new).
Proof. apply update_buffer_fits. Qed.

Lemma set_tail_length buf new buf' :
  set_tail buf new = Some buf' → length buf' = length buf.
Proof.
  unfold set_tail.
  set (m := if (length new =? 0)%nat then length buf
            else (length new `min` length buf)%nat).
  assert (m ≤ length buf)%nat by (unfold m; case_match; lia).
  destruct (Nat.eqb_spec (length new) m) as [Hk|Hk].
  - intros [= <-]. rewrite length_app, length_take. lia.
  - destruct new as [|x [|y new]]; [done| |done].
    intros [= <-]. rewrite length_app, length_take, length_replicate. lia.
Qed.

(** X14. Whatever is pushed, and whether the push returns or raises, the
    buffer keeps its length. *)
Theorem update_buffer_length buf new :
  length (after (update_buffer buf new)) = length buf.
Proof.
  unfold update_buffer.
  destruct (set_tail (roll_back buf (length new)) new) as [buf'|] eqn:E;
    simpl.
  - by rewrite (set_tail_length _ _ _ E), roll_back_length.
  - apply roll_back_length.
Qed.

(** X15. An empty chunk pushed on a buffer that is not empty raises (no
    values for the whole of the buffer) and leaves the buffer as it was. *)
Theorem update_buffer_empty_chunk buf :
  buf ≠ [] → update_buffer buf [] = Raises buf.
Proof.
  intros Hne. unfold update_buffer, set_tail, roll_back.
  cbn [length]. rewrite Nat.Div0.mod_0_l. rewrite drop_0, take_0, app_nil_r.
  destruct buf as [|x buf]; done.
Qed.

(** X16. After any run of chunks, each not empty and not longer than the
    buffer, the buffer holds the latest samples of everything it has seen:
    its first content followed by the chunks in order, less as many samples
    at the front as the chunks brought in. *)
Theorem feed_keeps_latest buf (chunks : list (list A)) :
  Forall (λ new, 0 < length new ≤ length buf)%nat chunks →
  feed buf chunks
  = drop (length (concat chunks)) (buf ++ concat chunks).
Proof.
  unfold feed. revert buf.
  induction chunks as [|new chunks IH]; intros buf Hall.
  { simpl. by rewrite app_nil_r. }
  apply Forall_cons in Hall as [Hnew Hall]. cbn [foldl concat].
  rewrite update_buffer_fits by done. cbn [after].
  rewrite IH.
  - rewrite length_app, <- drop_drop, <- app_assoc.
    f_equal. rewrite drop_app_le by lia. done.
  - eapply Forall_impl; [exact Hall|]. simpl. intros c Hc.
    rewrite length_app, length_drop. lia.
Qed.

End buffer.

(** ** The log file *)

Section logging.

Context {A : Type}.
Variable fill : A.
Abbreviation log := (log_channel fill).

Lemma set_tail_append {B} (old new : list B) (pad : list B) :
  new ≠ [] → length pad = length new →
  set_tail (old ++ pad) new = Some (old ++ new).
Proof.
  intros Hne Hpad. unfold set_tail. rewrite length_app, Hpad.
  destruct new as [|x new]; [done|].
  rewrite (proj2 (Nat.eqb_neq _ 0)) by (simpl; lia).
  rewrite Nat.min_l by lia. rewrite Nat.eqb_refl.
  by rewrite Nat.add_sub, take_app_length.
Qed.

Lemma resize_grow {B} (x : B) (dset : list B) (k : nat) :
  resize x dset (length dset + k) = dset ++ replicate k x.
Proof.
  unfold resize. rewrite Nat.add_comm, Nat.add_sub, Nat.add_comm.
  apply take_ge. rewrite length_app, length_replicate. lia.
Qed.

Lemma log_channel_step (f : H5 A) name timestamp (new : list A)
    (data_dset : list A) (time_dset : list string) :
  new ≠ [] →
  data_group f !! name = Some data_dset →
  time_group f !! name = Some time_dset →
  length time_dset = length data_dset →
  log f name timestamp new
  = {| data_group := <[name := data_dset ++ new]> (data_group f);
       time_group :=
         <[name := time_dset ++ replicate (length new) timestamp]>
           (time_group f) |}.
Proof.
  intros Hne Hd Ht Hlen. unfold log_channel. rewrite Hd, Ht.
  destruct new as [|x new]; [done|]. cbn [length Nat.leb]. cbv zeta.
  rewrite resize_grow, <- Hlen, resize_grow.
  rewrite set_tail_append by (rewrite ?length_replicate; done).
  rewrite set_tail_append by (rewrite ?length_replicate; done).
  done.
Qed.

(** X17. Logging a chunk that is not empty to a channel whose two datasets
    exist and are equally long appends: the data dataset is the old one
    followed by the chunk, the timestamps dataset is the old one followed by
    the turn's clock text, once per sample; the datasets of the other
    channels are not touched. *)
Theorem log_channel_appends (f : H5 A) name timestamp (new : list A)
    (data_dset : list A) (time_dset : list string) :
  new ≠ [] →
  data_group f !! name = Some data_dset →
  time_group f !! name = Some time_dset →
  length time_dset = length data_dset →
  log f name timestamp new
  = {| data_group := <[name := data_dset ++ new]> (data_group f);
       time_group :=
         <[name := time_dset ++ replicate (length new) timestamp]>
           (time_group f) |}.
Proof. apply log_channel_step. Qed.

Lemma log_all_appends (chunks : list (string * list A)) (f : H5 A) name
    (data_dset : list A) (time_dset : list string) :
  data_group f !! name = Some data_dset →
  time_group f !! name = Some time_dset →
  length time_dset = length data_dset →
  data_group (log_all fill f name chunks) !! name
  = Some (data_dset ++ concat (map snd chunks))
  ∧ time_group (log_all fill f name chunks) !! name
    = Some (time_dset
            ++ concat (map (λ tc, replicate (length tc.2) tc.1) chunks)).
Proof.
  revert f data_dset time_dset.
  induction chunks as [|[ts new] chunks IH];
    intros f data_dset time_dset Hd Ht Hlen.
  { simpl. by rewrite !app_nil_r. }
  unfold log_all. cbn [foldl map concat fst snd].
  destruct new as [|x new].
  { unfold log_channel at 2. cbn [length Nat.leb]. simpl.
    apply (IH f data_dset time_dset); done. }
  rewrite (log_channel_step f name ts (x :: new) data_dset time_dset)
    by done.
  rewrite !app_assoc. apply IH; cbn [data_group time_group fst snd].
  - apply lookup_insert_eq.
  - apply lookup_insert_eq.
  - rewrite !length_app, length_replicate. lia.
Qed.

(** X18. From the file as [toggle_logging] creates it, logging any run of
    chunks leaves in the data dataset exactly the samples read, in the
    order read, none lost and none twice, and in the timestamps dataset one
    clock text per sample, that of the turn in which the sample was read;
    empty chunks leave no trace. *)
Theorem log_all_complete name (chunks : list (string * list A)) :
  data_group (log_all fill (new_log name) name chunks) !! name
  = Some (concat (map snd chunks))
  ∧ time_group (log_all fill (new_log name) name chunks) !! name
    = Some (concat (map (λ tc, replicate (length tc.2) tc.1) chunks)).
Proof.
  apply (log_all_appends chunks (new_log name) name [] []); try done.
  - apply lookup_singleton_eq.
  - apply lookup_singleton_eq.
Qed.

End logging.

(** ** The further properties on concrete inputs *)

Lemma update_data_rejects_nested_witness :
  occurs_in (zeros (25 * MB)) (VList [VInt 1; VTuple [zeros (25 * MB)]])
  ∧ update_data cpython_getsizeof recursion_limit "storePath"
      (VList [VInt 1; VTuple [zeros (25 * MB)]]) ∅
    = (if decide (frames_needed (VList [VInt 1; VTuple [zeros (25 * MB)]])
                  ≤ recursion_limit)%nat
       then Answer false else RecursionError, ∅).
Proof.
  assert (occurs_in (zeros (25 * MB))
            (VList [VInt 1; VTuple [zeros (25 * MB)]])) as Hocc.
  { apply occurs_list with (x := VTuple [zeros (25 * MB)]).
    - apply list_elem_of_further, list_elem_of_here.
    - apply occurs_tuple with (x := zeros (25 * MB)).
      + apply list_elem_of_here.
      + apply occurs_here. }
  assert (ENTRY_LIMIT ≤ deep_size cpython_getsizeof (zeros (25 * MB)))
    as Hbig by (rewrite zeros_size; unfold MB, ENTRY_LIMIT; lia).
  split; [exact Hocc|].
  exact (update_data_rejects_nested cpython_getsizeof recursion_limit
           cpython_getsizeof_nonneg "storePath" _ _ ∅ Hocc Hbig).
Defined.

Lemma full_store_is_stuck_witness :
  TOTAL_LIMIT ≤ deep_size cpython_getsizeof (as_dict three_blobs)
  ∧ foldl (serve cpython_getsizeof recursion_limit) three_blobs
      [Update "a" VNone; Update "recording" (VInt 1)]
    = three_blobs.
Proof.
  assert (TOTAL_LIMIT ≤ deep_size cpython_getsizeof (as_dict three_blobs))
    as Hfull by (rewrite three_blobs_total; by vm_compute).
  split; [exact Hfull|].
  apply (full_store_is_stuck cpython_getsizeof recursion_limit three_blobs
           _ Hfull).
  repeat constructor.
Defined.

Lemma other_keys_untouched_witness :
  foldl (serve cpython_getsizeof recursion_limit) {["storePath" := VStr "/data/"]}
    [Update "recording" (VInt 1); Delete "recording_command"]
    !! "storePath"
  = ({["storePath" := VStr "/data/"]} : gmap string pyval) !! "storePath".
Proof.
  apply (other_keys_untouched cpython_getsizeof recursion_limit).
  repeat constructor; done.
Defined.

Lemma update_then_delete_witness :
  update_data cpython_getsizeof recursion_limit "storePath" (VStr "/data/") ∅
  = (Answer true, {["storePath" := VStr "/data/"]})
  ∧ delete_data "storePath" {["storePath" := VStr "/data/"]} = (true, ∅).
Proof.
  assert (update_data cpython_getsizeof recursion_limit "storePath"
            (VStr "/data/") ∅
          = (Answer true, {["storePath" := VStr "/data/"]})) as Hup
    by (vm_compute; reflexivity).
  split; [exact Hup|].
  exact (update_then_delete cpython_getsizeof recursion_limit ∅ _ "storePath"
           (VStr "/data/") (lookup_empty _) Hup).
Defined.

Lemma delete_data_missing_witness :
  delete_data "recording" (∅ : gmap string pyval) = (false, ∅).
Proof.
  exact (proj1 (delete_data_missing ∅ "recording") (lookup_empty _)).
Defined.

Lemma client_never_removes_witness :
  is_Some (data (command_server true) !! "recording_command")
  ∧ is_Some
      (data (do_calls cpython_getsizeof recursion_limit (PythonServer_init Connects)
               (command_server true) hundred_calls).2
         !! "recording_command").
Proof.
  assert (is_Some (data (command_server true) !! "recording_command"))
    as Hk by (eexists; apply lookup_singleton_eq).
  split; [exact Hk|].
  exact (client_never_removes cpython_getsizeof recursion_limit
           (PythonServer_init Connects)
           (command_server true) hundred_calls "recording_command" Hk).
Defined.


Lemma lost_link_degrades_witness :
  do_calls cpython_getsizeof recursion_limit (PythonServer_init Connects)
    {| data := {["recording" := VInt 1]}; link_ok := false |}
    hundred_calls
  = (replicate 100 VNone,
     {| data := {["recording" := VInt 1]}; link_ok := false |}).
Proof.
  exact (lost_link_degrades cpython_getsizeof recursion_limit
           (PythonServer_init Connects)
           {| data := {["recording" := VInt 1]}; link_ok := false |}
           hundred_calls eq_refl).
Defined.


Lemma bad_storePath_breaks_start_witness :
  monitor_loop cpython_getsizeof recursion_limit stamp always always 3 fresh_gui
    {| data := <["storePath" := VInt 5]>
                 {["recording_command" := VBool true]};
       link_ok := true |}
  = Raises (fresh_gui,
            {| data := <["storePath" := VInt 5]>
                         {["recording_command" := VBool true]};
               link_ok := true |}).
Proof.
  refine (proj2 (proj2 (bad_storePath_breaks_start cpython_getsizeof
                          recursion_limit stamp always always 2 fresh_gui
                          _ eq_refl _ _) _)).
  - vm_compute; reflexivity.
  - intros p. vm_compute. discriminate.
  - vm_compute; reflexivity.
Defined.


Lemma update_buffer_slides_witness :
  update_buffer [1; 2; 3; 4; 5] [6; 7] = Returns [3; 4; 5; 6; 7].
Proof.
  apply (update_buffer_slides [1; 2; 3; 4; 5] [6; 7]). simpl. lia.
Defined.

Lemma update_buffer_empty_chunk_witness :
  update_buffer [1; 2; 3] [] = Raises [1; 2; 3].
Proof. by apply (update_buffer_empty_chunk [1; 2; 3]). Defined.

Lemma feed_keeps_latest_witness :
  feed [0; 0; 0] [[1; 2]; [3]; [4; 5; 6]] = [4; 5; 6].
Proof.
  apply (feed_keeps_latest [0; 0; 0] [[1; 2]; [3]; [4; 5; 6]]).
  repeat constructor; simpl; lia.
Defined.

Lemma log_channel_appends_witness :
  log_channel 0 {| data_group := {["Behavior" := [1; 2]]};
                   time_group := {["Behavior" := ["t0"; "t0"]]} |}
    "Behavior" "t1" [3]
  = {| data_group := <["Behavior" := [1; 2; 3]]> {["Behavior" := [1; 2]]};
       time_group := <["Behavior" := ["t0"; "t0"; "t1"]]>
                       {["Behavior" := ["t0"; "t0"]]} |}.
Proof.
  assert ([3] ≠ ([] : list Z)) as Hne by done.
  exact (log_channel_appends 0
           {| data_group := {["Behavior" := [1; 2]]};
              time_group := {["Behavior" := ["t0"; "t0"]]} |}
           "Behavior" "t1" [3] [1; 2] ["t0"; "t0"]
           Hne (lookup_singleton_eq _ _) (lookup_singleton_eq _ _) eq_refl).
Defined.
